(** * Validation pipeline, response envelopes and database gateway

    A shallow embedding of the backend's request-handling core:
    - [middleware/crud]   : [CrudController] (merge, validate, tuple result),
                            [successResponse], [errorResponse];
    - [middleware/error]  : [errorMiddleware], [StatusGeneralError];
    - [utils/database]    : [getPool], [dbRequest], [beginTransaction],
                            [commitTransaction], [rollbackTransaction];
    - [utils/zodValidation] : the string schemas [zString], [zName],
                            [zNullableString], [zNullableDescription],
                            [zPhone].

    JavaScript values are a small inductive type; objects are finite maps
    from property names to values, arrays are lists.  Promises are awaited
    at once: an [async] function is a computation that either returns a
    value or raises one. *)

From stdpp Require Import gmap strings list fin_maps pretty.
From Stdlib Require Import ZArith.

Set Warnings "-register-all,-clear-no-such-hyp".
Local Open Scope Z_scope.

(* ===================================================================== *)
(** ** JavaScript values *)
(* ===================================================================== *)

(** Numbers are restricted to the integers (the code only builds 1, 400
    and 500 and compares a length with 0). *)
Inductive JsValue : Type :=
| JUndefined
| JNull
| JBool (b : bool)
| JNum (n : Z)
| JStr (s : string)
| JArr (xs : list JsValue)
| JObj (props : gmap string JsValue).

(** The result of running a piece of code: a normal completion or a
    [throw] (equally: a promise that resolved or rejected, once awaited).
    Any value can be thrown. *)
Inductive Outcome (A : Type) : Type :=
| Returned (a : A)
| Raised (e : JsValue).

Arguments Returned {A} a.
Arguments Raised {A} e.

#[global] Instance Outcome_ret : MRet Outcome := λ A a, Returned a.

#[global] Instance Outcome_bind : MBind Outcome := λ A B f m,
  match m with
  | Returned a => f a
  | Raised e => Raised e
  end.

(** [try { body } catch (error) { handler }] *)
Definition try_catch {A} (body : Outcome A) (handler : JsValue → Outcome A) : Outcome A :=
  match body with
  | Returned a => Returned a
  | Raised error => handler error
  end.

(** [new TypeError(message)], with the message texts of Node's engine. *)
Definition TypeError (message : string) : JsValue :=
  JObj {[ "name" := JStr "TypeError"; "message" := JStr message ]}.

Definition type_name (v : JsValue) : string :=
  match v with
  | JNull => "null"
  | _ => "undefined"
  end.

Definition cannot_read (v : JsValue) (k : string) : JsValue :=
  TypeError ("Cannot read properties of " +:+ type_name v +:+ " (reading '" +:+ k +:+ "')").

Definition is_nullish (v : JsValue) : bool :=
  match v with
  | JUndefined | JNull => true
  | _ => false
  end.

(** ToBoolean *)
Definition truthy (v : JsValue) : bool :=
  match v with
  | JUndefined | JNull => false
  | JBool b => b
  | JNum n => negb (n =? 0)
  | JStr s => negb (String.eqb s "")
  | JArr _ | JObj _ => true
  end.

(** [a || b] *)
Definition js_or (a b : JsValue) : JsValue := if truthy a then a else b.

(** Property read [v.k] for a name [k] that is not an array index nor
    [length]: reading from [undefined] or [null] throws, an object yields
    its property or [undefined], every other value yields [undefined]. *)
Definition get (v : JsValue) (k : string) : Outcome JsValue :=
  match v with
  | JUndefined | JNull => Raised (cannot_read v k)
  | JObj props => Returned (default JUndefined (props !! k))
  | _ => Returned JUndefined
  end.

(** Element read [v[i]] with a numeric index. *)
Definition at_index (v : JsValue) (i : nat) : Outcome JsValue :=
  match v with
  | JUndefined | JNull => Raised (cannot_read v (pretty i))
  | JArr xs => Returned (default JUndefined (xs !! i))
  | _ => Returned JUndefined
  end.

Definition indexed (xs : list JsValue) : gmap string JsValue :=
  list_to_map (imap (λ i x, (pretty i, x)) xs).

Definition chars (s : string) : list JsValue :=
  (λ c, JStr (String c EmptyString)) <$> String.list_ascii_of_string s.

(** The own enumerable string-keyed properties of a value, as object
    spread and [Object.keys] see them. *)
Definition own_props (v : JsValue) : gmap string JsValue :=
  match v with
  | JObj props => props
  | JArr xs => indexed xs
  | JStr s => indexed (chars s)
  | _ => ∅
  end.

(** One spread element [{ ...target, ...source }]: the properties of
    [source] are written over those of [target]. *)
Definition spread (target source : gmap string JsValue) : gmap string JsValue :=
  source ∪ target.

(* ===================================================================== *)
(** ** zod: the schema interface *)
(* ===================================================================== *)

(** A [z.ZodSchema] is used through [parseAsync] alone. *)
Record ZodSchema : Type := { parseAsync : JsValue → Outcome JsValue }.

(** The failure zod raises for an input that violates the schema: it
    carries the list of issues, readable as [errors]. *)
Definition ZodError (issues : list JsValue) : JsValue :=
  JObj {[ "name" := JStr "ZodError"; "issues" := JArr issues; "errors" := JArr issues ]}.

Definition digit_of (c : Ascii.ascii) : option Z :=
  let n := Z.of_nat (Ascii.nat_of_ascii c) in
  if (48 <=? n) && (n <=? 57) then Some (n - 48) else None.

Fixpoint parse_digits (acc : Z) (s : string) : option Z :=
  match s with
  | EmptyString => Some acc
  | String c rest => d ← digit_of c; parse_digits (acc * 10 + d) rest
  end.

(** [Number(v)] where [v] is an integer or a non-empty string of decimal
    digits; [None] stands for [NaN], which is also what [Number] gives
    for [undefined].  Other values are not covered. *)
Definition coerce_number (v : JsValue) : option Z :=
  match v with
  | JNum n => Some n
  | JStr (String c rest) => parse_digits 0 (String c rest)
  | _ => None
  end.

Definition issue (code path message : string) : JsValue :=
  JObj {[ "code" := JStr code; "path" := JArr [JStr path]; "message" := JStr message ]}.

(** A coercing schema in the style of [z.object({ id: zFK })], with
    [zFK = z.coerce.number().int().positive()]: the [id] of the input is
    coerced to a number and must be positive; the parsed value keeps
    [id] alone.  It is a fixture for examples, used where the [id] is a
    string of decimal digits or is missing. *)
Definition idSchema : ZodSchema :=
  {| parseAsync input :=
       match coerce_number (default JUndefined (own_props input !! "id")) with
       | Some n =>
           if 0 <? n then Returned (JObj {[ "id" := JNum n ]})
           else Raised (ZodError [issue "too_small" "id" "Number must be greater than 0"])
       | None => Raised (ZodError [issue "invalid_type" "id" "Expected number, received nan"])
       end |}.

(* ===================================================================== *)
(** ** middleware/crud : CrudController *)
(* ===================================================================== *)

Record SecurityConfig : Type := { securable : string; permission : string }.

Record Credential : Type := { idAccount : Z; idUser : Z }.

Record ValidationResult : Type := { credential : Credential; params : JsValue }.

(** The object placed in the second slot when validation fails. *)
Record ValidationFailure : Type :=
  { statusCode : Z; code : string; message : string; details : JsValue }.

(** The part of an express [Request] that the controller reads. *)
Record Request : Type :=
  { req_params : gmap string JsValue;
    req_query : gmap string JsValue;
    req_body : JsValue;
    req_path : string;
    req_method : string }.

(** [[ValidationResult | null, any]]: [None] is [null]. *)
Definition ValidationTuple : Type := (option ValidationResult * option ValidationFailure)%type.

Module CrudController.

Record t : Type := { securityConfig : list SecurityConfig }.

(** [{ ...req.params, ...req.query, ...req.body }] *)
Definition merge (req : Request) : gmap string JsValue :=
  spread (spread (spread ∅ (req_params req)) (req_query req)) (own_props (req_body req)).

Definition validate (this : t) (req : Request) (schema : ZodSchema) (operation : string)
  : Outcome ValidationTuple :=
  try_catch
    (let params := merge req in
     validated ← parseAsync schema (JObj params);
     mret (Some {| credential := {| idAccount := 1; idUser := 1 |};
                   params := validated |},
           None))
    (λ error,
     errors ← get error "errors";
     mret (None,
           Some {| statusCode := 400;
                   code := "VALIDATION_ERROR";
                   message := "Validation failed";
                   details := errors |})).

Definition create (this : t) (req : Request) (schema : ZodSchema) : Outcome ValidationTuple :=
  validate this req schema "CREATE".

Definition read (this : t) (req : Request) (schema : ZodSchema) : Outcome ValidationTuple :=
  validate this req schema "READ".

Definition update (this : t) (req : Request) (schema : ZodSchema) : Outcome ValidationTuple :=
  validate this req schema "UPDATE".

Definition delete (this : t) (req : Request) (schema : ZodSchema) : Outcome ValidationTuple :=
  validate this req schema "DELETE".

(** The four public entry points. *)
Inductive EntryPoint : Type := Create | Read | Update | Delete.

Definition call (entry : EntryPoint) : t → Request → ZodSchema → Outcome ValidationTuple :=
  match entry with
  | Create => create
  | Read => read
  | Update => update
  | Delete => delete
  end.

End CrudController.

(** A slot is populated when it is not [null]. *)
Definition exactly_one_slot (r : ValidationTuple) : Prop :=
  (is_Some r.1 ∧ r.2 = None) ∨ (r.1 = None ∧ is_Some r.2).

(* ===================================================================== *)
(** ** middleware/crud : response helpers *)
(* ===================================================================== *)

(** [new Date().toISOString()] is the argument [now]. *)
Definition successResponse (data : JsValue) (now : string) : JsValue :=
  JObj {[ "success" := JBool true; "data" := data; "timestamp" := JStr now ]}.

(** [details] is [JUndefined] when the optional argument is omitted. *)
Definition errorResponse (message : string) (details : JsValue) (now : string) : JsValue :=
  JObj {[ "success" := JBool false;
          "error" := JObj {[ "message" := JStr message; "details" := details ]};
          "timestamp" := JStr now ]}.

(* ===================================================================== *)
(** ** middleware/error *)
(* ===================================================================== *)

(** What the middleware does with [res] and with the console:
    [res.status(res_status).json(res_json)] and one [console.error]. *)
Record Response : Type :=
  { res_status : JsValue; res_json : JsValue; logged : string * JsValue }.

(** [NODE_ENV] is [process.env.NODE_ENV] ([None] when unset). *)
Definition errorMiddleware (err : JsValue) (req : Request) (NODE_ENV : option string)
  (now : string) : Outcome Response :=
  err_statusCode ← get err "statusCode";
  let statusCode := js_or err_statusCode (JNum 500) in
  err_code ← get err "code";
  err_message ← get err "message";
  err_details ← (if bool_decide (NODE_ENV = Some "development")
                 then get err "stack" else mret JUndefined);
  let error :=
    {[ "code" := js_or err_code (JStr "INTERNAL_SERVER_ERROR");
       "message" := js_or err_message (JStr "An unexpected error occurred");
       "details" := err_details ]} in
  let errorResponse : JsValue :=
    JObj {[ "success" := JBool false; "error" := JObj error; "timestamp" := JStr now ]} in
  err_stack ← get err "stack";
  mret {| res_status := statusCode;
          res_json := errorResponse;
          logged := ("Error:",
                     JObj {[ "code" := default JUndefined (error !! "code");
                             "message" := default JUndefined (error !! "message");
                             "path" := JStr (req_path req);
                             "method" := JStr (req_method req);
                             "stack" := err_stack ]}) |}.

Definition StatusGeneralError : JsValue :=
  JObj {[ "statusCode" := JNum 500;
          "code" := JStr "GENERAL_ERROR";
          "message" := JStr "An unexpected error occurred" ]}.

(** The error envelope of the external interface:
    [{success: false, error: {code: <string>, message: <string>,
    details?}, timestamp: <string>}]. *)
Definition is_string (v : JsValue) : bool :=
  match v with
  | JStr _ => true
  | _ => false
  end.

Definition is_false (v : JsValue) : bool :=
  match v with
  | JBool false => true
  | _ => false
  end.

Definition error_object_shape (error : JsValue) : bool :=
  match error with
  | JObj props =>
      is_string (default JUndefined (props !! "code"))
      && is_string (default JUndefined (props !! "message"))
  | _ => false
  end.

Definition error_envelope_shape (envelope : JsValue) : bool :=
  match envelope with
  | JObj props =>
      is_false (default JUndefined (props !! "success"))
      && error_object_shape (default JUndefined (props !! "error"))
      && is_string (default JUndefined (props !! "timestamp"))
  | _ => false
  end.

(* ===================================================================== *)
(** ** utils/database *)
(* ===================================================================== *)

Module ExpectedReturn.

(** [Unlisted] is any other runtime value: the [default] branch of the
    [switch]. *)
Inductive t : Type := Single | Multi | None | Unlisted.

End ExpectedReturn.

(** Driver handles: only their identity matters. *)
Inductive ConnectionPool : Type := PoolHandle (n : nat).

Inductive Transaction : Type := TransactionHandle (n : nat).

(** What a [sql.Request] is bound to. *)
Inductive RequestScope : Type :=
| OnTransaction (transaction : Transaction)
| OnPool (currentPool : ConnectionPool).

(** The driver's procedure result: the ordered result sets, each a list
    of records; [recordset] is the first of them. *)
Record IResult : Type := { recordsets : list (list JsValue) }.

Definition recordsets_value (result : IResult) : list JsValue := JArr <$> recordsets result.

Definition recordset (result : IResult) : JsValue :=
  default JUndefined (recordsets_value result !! 0%nat).

(** The mssql driver, as far as the gateway calls it:
    [sql_connect n] is the outcome of the [n]-th call of
    [sql.connect(config.database)] in the process; [request_execute]
    is the outcome of binding the inputs on a request and executing the
    routine.  The answer is all that is kept of an execution: what a
    routine does to the database is not part of the state. *)
Record Driver : Type :=
  { sql_connect : nat → Outcome ConnectionPool;
    request_execute : RequestScope → gmap string JsValue → string → Outcome IResult }.

Inductive ScopeState : Type := Active | Committed | RolledBack.

(** Process state: the module variable [pool], the calls of
    [sql.connect] made so far, the [console.error] lines written so far,
    and the driver's transaction scopes. *)
Record State : Type :=
  { pool : option ConnectionPool;
    connects : nat;
    console : list (string * JsValue);
    scopes : gmap nat ScopeState }.

Definition initial : State :=
  {| pool := Datatypes.None; connects := 0; console := []; scopes := ∅ |}.

(** An [async] function over the process state. *)
Definition Action (A : Type) : Type := State → Outcome A * State.

#[global] Instance Action_ret : MRet Action := λ A a st, (Returned a, st).

#[global] Instance Action_bind : MBind Action := λ A B f m st,
  match m st with
  | (Returned a, st') => f a st'
  | (Raised e, st') => (Raised e, st')
  end.

Definition lift {A} (o : Outcome A) : Action A := λ st, (o, st).

Definition throw {A} (e : JsValue) : Action A := λ st, (Raised e, st).

(** [try { body } catch (error) { handler }]: what [body] did to the
    state before it threw stays done. *)
Definition try_catch_st {A} (body : Action A) (handler : JsValue → Action A) : Action A :=
  λ st,
  match body st with
  | (Returned a, st') => (Returned a, st')
  | (Raised error, st') => handler error st'
  end.

Definition read_pool : Action (option ConnectionPool) := λ st, (Returned (pool st), st).

Definition write_pool (p : ConnectionPool) : Action unit := λ st,
  (Returned (),
   {| pool := Some p; connects := connects st; console := console st; scopes := scopes st |}).

(** [await sql.connect(config.database)] *)
Definition connect (drv : Driver) : Action ConnectionPool := λ st,
  (sql_connect drv (connects st),
   {| pool := pool st; connects := S (connects st); console := console st;
      scopes := scopes st |}).

Definition with_line (line : string * JsValue) (st : State) : State :=
  {| pool := pool st; connects := connects st;
     console := console st ++ [line]; scopes := scopes st |}.

Definition console_error (label : string) (context : JsValue) : Action unit := λ st,
  (Returned (), with_line (label, context) st).

(** A call of [getPool] that runs to its end with no other call in
    between (the two halves around the [await] are [getPool_enter] and
    [getPool_resume] below). *)
Definition getPool (drv : Driver) : Action ConnectionPool :=
  current ← read_pool;
  match current with
  | Some p => mret p
  | Datatypes.None => p ← connect drv; write_pool p;; mret p
  end.

(** Where a call of [getPool] stands once it has been entered: it has
    returned the pool it found, or it is suspended at [await
    sql.connect(...)] on the connection attempt it started. *)
Inductive Pending : Type :=
| Found (p : ConnectionPool)
| Awaiting (attempt : nat).

(** The part of [getPool] up to the [await]: the test [!pool] and, when
    there is no pool, the call of [sql.connect]. *)
Definition getPool_enter (drv : Driver) (st : State) : Pending * State :=
  match pool st with
  | Some p => (Found p, st)
  | Datatypes.None =>
      (Awaiting (connects st),
       {| pool := pool st; connects := S (connects st); console := console st;
          scopes := scopes st |})
  end.

(** The part of [getPool] after the [await], run when the connection
    attempt has settled: the assignment to [pool] and [return pool], or
    the rejection. *)
Definition getPool_resume (drv : Driver) (call : Pending) : Action ConnectionPool :=
  match call with
  | Found p => mret p
  | Awaiting attempt =>
      match sql_connect drv attempt with
      | Returned p => write_pool p;; mret p
      | Raised e => throw e
      end
  end.

(** Two calls of [getPool] that overlap: both are entered before either
    connection attempt has settled, then the first is resumed, then the
    second. *)
Definition getPool_overlapped (drv : Driver) (st : State)
  : Outcome ConnectionPool * State * (Outcome ConnectionPool * State) :=
  let '(first, st1) := getPool_enter drv st in
  let '(second, st2) := getPool_enter drv st1 in
  let '(first_result, st3) := getPool_resume drv first st2 in
  let '(second_result, st4) := getPool_resume drv second st3 in
  (first_result, st3, (second_result, st4)).

(** [Object.keys(parameters).forEach((key) => request.input(key,
    parameters[key]))]: [Object.keys] throws on [undefined] and [null]. *)
Definition bind_inputs (parameters : JsValue) : Outcome (gmap string JsValue) :=
  if is_nullish parameters
  then Raised (TypeError "Cannot convert undefined or null to object")
  else Returned (own_props parameters).

(** [result.recordsets[index]] *)
Definition recordsets_at (result : IResult) (index : nat) : JsValue :=
  default JUndefined (recordsets_value result !! index).

(** The assignment [object[name] = value] on an object created by [{}],
    as far as own properties go: it sets the own property [name], except
    for the name [__proto__], which is the accessor inherited from
    [Object.prototype]: its setter creates no own property (it replaces
    the prototype when [value] is an object and does nothing when it is
    [undefined]).  Prototypes are not part of the values here, so a read
    of [__proto__] is outside the model. *)
Definition assign (object : gmap string JsValue) (name : string) (value : JsValue)
  : gmap string JsValue :=
  if decide (name = "__proto__") then object else <[name := value]> object.

(** [resultSetNames.forEach((name, index) => { namedResults[name] =
    result.recordsets[index]; })] starting from [{}]. *)
Definition namedResults (resultSetNames : list string) (result : IResult)
  : gmap string JsValue :=
  foldl (λ named entry, assign named entry.2 (recordsets_at result entry.1))
        ∅ (imap (λ index name, (index, name)) resultSetNames).

(** [resultSetNames && resultSetNames.length > 0] *)
Definition names_given (resultSetNames : option (list string)) : bool :=
  match resultSetNames with
  | Some names => bool_decide (0 < length names)%nat
  | Datatypes.None => false
  end.

(** The [switch (expectedReturn)] of [dbRequest]. *)
Definition shape (expectedReturn : ExpectedReturn.t) (resultSetNames : option (list string))
  (result : IResult) : Outcome JsValue :=
  match expectedReturn with
  | ExpectedReturn.Single => at_index (recordset result) 0
  | ExpectedReturn.Multi =>
      if names_given resultSetNames
      then Returned (JObj (namedResults (default [] resultSetNames) result))
      else Returned (JArr (recordsets_value result))
  | ExpectedReturn.None => Returned JNull
  | ExpectedReturn.Unlisted => Returned (recordset result)
  end.

(** [transaction ? new sql.Request(transaction) : new sql.Request(currentPool)] *)
Definition new_Request (transaction : option Transaction) (currentPool : ConnectionPool)
  : RequestScope :=
  match transaction with
  | Some tx => OnTransaction tx
  | Datatypes.None => OnPool currentPool
  end.

Definition dbRequest (drv : Driver) (routine : string) (parameters : JsValue)
  (expectedReturn : ExpectedReturn.t) (transaction : option Transaction)
  (resultSetNames : option (list string)) : Action JsValue :=
  try_catch_st
    (currentPool ← getPool drv;
     let request := new_Request transaction currentPool in
     inputs ← lift (bind_inputs parameters);
     result ← lift (request_execute drv request inputs routine);
     lift (shape expectedReturn resultSetNames result))
    (λ error,
     error_message ← lift (get error "message");
     console_error "Database error:"
       (JObj {[ "routine" := JStr routine;
                "error" := error_message;
                "parameters" := parameters ]});;
     throw error).

Definition InvalidStateError : JsValue := JObj {[ "name" := JStr "InvalidStateError" ]}.

Definition TransactionError : JsValue := JObj {[ "name" := JStr "TransactionError" ]}.

Definition set_scope (n : nat) (s : ScopeState) (st : State) : State :=
  {| pool := pool st; connects := connects st; console := console st;
     scopes := <[n := s]> (scopes st) |}.

(** Modelled from the spec: the begin of the driver's transaction object
    ([sql.Transaction] belongs to the mssql package, which the repository
    only calls).  The spec's TransactionScope is created by an explicit
    begin and starts in the state Active. *)
Definition transaction_begin (currentPool : ConnectionPool) : Action Transaction := λ st,
  let n := fresh (dom (scopes st)) in
  (Returned (TransactionHandle n), set_scope n Active st).

(** Modelled from the spec: commit and rollback of the driver's
    transaction object (mssql's [Transaction.commit] and
    [Transaction.rollback], which the repository only calls).  The spec's
    TransactionScope has a state among Active, Committed and RolledBack;
    exactly one of commit and rollback may terminate it, and either of
    them on an already-terminated scope fails with InvalidStateError.  A
    scope that was never begun is refused with TransactionError. *)
Definition terminate (final : ScopeState) (transaction : Transaction) : Action unit := λ st,
  let 'TransactionHandle n := transaction in
  match scopes st !! n with
  | Some Active => (Returned (), set_scope n final st)
  | Some _ => (Raised InvalidStateError, st)
  | Datatypes.None => (Raised TransactionError, st)
  end.

Definition transaction_commit : Transaction → Action unit := terminate Committed.

Definition transaction_rollback : Transaction → Action unit := terminate RolledBack.

(** [new sql.Transaction(currentPool)] followed by [await
    transaction.begin()] is the single step [transaction_begin]. *)
Definition beginTransaction (drv : Driver) : Action Transaction :=
  currentPool ← getPool drv;
  transaction ← transaction_begin currentPool;
  mret transaction.

Definition commitTransaction (transaction : Transaction) : Action unit :=
  transaction_commit transaction.

Definition rollbackTransaction (transaction : Transaction) : Action unit :=
  transaction_rollback transaction.

(** A scope on which commit or rollback has already been carried out. *)
Definition terminated (st : State) (transaction : Transaction) : Prop :=
  let 'TransactionHandle n := transaction in
  scopes st !! n = Some Committed ∨ scopes st !! n = Some RolledBack.

(** The routine is executed: the pool is there or can be connected, the
    parameters can be bound, and the driver answers with [outcome]. *)
Definition executes (drv : Driver) (routine : string) (parameters : JsValue)
  (transaction : option Transaction) (st : State) (outcome : Outcome IResult)
  (st' : State) : Prop :=
  ∃ currentPool,
    getPool drv st = (Returned currentPool, st')
    ∧ is_nullish parameters = false
    ∧ request_execute drv (new_Request transaction currentPool) (own_props parameters)
        routine = outcome.

(** Some property of [failure] holds [v]. *)
Definition attached_to (failure v : JsValue) : Prop := ∃ k, get failure k = Returned v.

(** [n] calls of [getPool], one after the other. *)
Fixpoint getPool_times (drv : Driver) (n : nat) (st : State)
  : list (Outcome ConnectionPool) * State :=
  match n with
  | O => ([], st)
  | S n' =>
      let '(o, st') := getPool drv st in
      let '(os, st'') := getPool_times drv n' st' in
      (o :: os, st'')
  end.

(* ===================================================================== *)
(** ** Concrete requests, schemas and drivers *)
(* ===================================================================== *)

Definition controller : CrudController.t := {| CrudController.securityConfig := [] |}.

(** path [{id:"1"}], query [{id:"2"}], body [{id:"3"}] *)
Definition collisionRequest : Request :=
  {| req_params := {[ "id" := JStr "1" ]};
     req_query := {[ "id" := JStr "2" ]};
     req_body := JObj {[ "id" := JStr "3" ]};
     req_path := "/api/v1/internal/task/1";
     req_method := "PUT" |}.

Definition emptyRequest : Request :=
  {| req_params := ∅; req_query := ∅; req_body := JObj ∅;
     req_path := "/api/v1/internal/task"; req_method := "POST" |}.

(** A schema whose refinement or transform throws [failure] instead of
    reporting an issue. *)
Definition throwingSchema (failure : JsValue) : ZodSchema :=
  {| parseAsync _ := Raised failure |}.

(** [new Error("boom")] *)
Definition plainError : JsValue :=
  JObj {[ "name" := JStr "Error"; "message" := JStr "boom";
          "stack" := JStr "Error: boom at refine (schema.ts:12:11)" ]}.

(** A driver that connects at once and answers every call with
    [outcome]. *)
Definition stubDriver (outcome : Outcome IResult) : Driver :=
  {| sql_connect _ := Returned (PoolHandle 0);
     request_execute _ _ _ := outcome |}.

(** The driver's own failure for a routine that cannot be executed. *)
Definition requestError : JsValue :=
  JObj {[ "name" := JStr "RequestError";
          "code" := JStr "EREQUEST";
          "message" := JStr "Could not find stored procedure" ]}.

Definition row (n : Z) : JsValue := JObj {[ "id" := JNum n ]}.

(** One result set, without records. *)
Definition emptyFirstSet : IResult := {| recordsets := [[]] |}.

(** Two result sets of one record each. *)
Definition twoSets : IResult := {| recordsets := [[row 1]; [row 2]] |}.

(** A result without any result set. *)
Definition noSets : IResult := {| recordsets := [] |}.

(** A driver whose first connection attempt fails with [failure] and
    whose later attempts succeed. *)
Definition flakyDriver (failure : JsValue) (outcome : Outcome IResult) : Driver :=
  {| sql_connect n :=
       match n with
       | O => Raised failure
       | S _ => Returned (PoolHandle 1)
       end;
     request_execute _ _ _ := outcome |}.

(** A driver that answers on a transaction with [inside] and on the pool
    with [outside]. *)
Definition scopedDriver (inside outside : Outcome IResult) : Driver :=
  {| sql_connect _ := Returned (PoolHandle 0);
     request_execute request _ _ :=
       match request with
       | OnTransaction _ => inside
       | OnPool _ => outside
       end |}.

(** A driver whose every connection attempt succeeds with a pool of its
    own. *)
Definition poolPerAttemptDriver (outcome : Outcome IResult) : Driver :=
  {| sql_connect n := Returned (PoolHandle n);
     request_execute _ _ _ := outcome |}.

(** The driver's failure for an unreachable server. *)
Definition connectionError : JsValue :=
  JObj {[ "name" := JStr "ConnectionError";
          "code" := JStr "ESOCKET";
          "message" := JStr "Failed to connect" ]}.

(* ===================================================================== *)
(** ** The failure object of the pipeline, as a value *)
(* ===================================================================== *)

(** The object literal [{ statusCode, code, message, details }] that
    [validate] puts in the second slot. *)
Definition failure_object (failure : ValidationFailure) : JsValue :=
  JObj {[ "statusCode" := JNum (statusCode failure);
          "code" := JStr (code failure);
          "message" := JStr (message failure);
          "details" := details failure ]}.

(** The part of [dbRequest] between the pool and the [catch]: binding,
    execution and shaping on the pool [currentPool]. *)
Definition run_request (drv : Driver) (routine : string) (parameters : JsValue)
  (expectedReturn : ExpectedReturn.t) (transaction : option Transaction)
  (resultSetNames : option (list string)) (currentPool : ConnectionPool) : Outcome JsValue :=
  inputs ← bind_inputs parameters;
  result ← request_execute drv (new_Request transaction currentPool) inputs routine;
  shape expectedReturn resultSetNames result.

(** The console line of the [catch] block of [dbRequest]. *)
Definition database_error_line (routine : string) (error_message parameters : JsValue)
  : string * JsValue :=
  ("Database error:",
   JObj {[ "routine" := JStr routine;
           "error" := error_message;
           "parameters" := parameters ]}).

(* ===================================================================== *)
(** ** utils/zodValidation : the string schemas *)
(* ===================================================================== *)

(** zod's string schema with its [min] and [max] checks, and [nullable].
    A string is its sequence of code units; a schema that is not a
    string schema or uses other checks (coercion, email, url, datetime)
    is not modelled. *)
Module z.

Inductive StringCheck : Type := Min (value : nat) | Max (value : nat).

(** [ZodString]: the checks in the order they were added. *)
Record ZodString : Type := { checks : list StringCheck }.

Definition parsedType (v : JsValue) : String.string :=
  match v with
  | JUndefined => "undefined"
  | JNull => "null"
  | JBool _ => "boolean"
  | JNum _ => "number"
  | JStr _ => "string"
  | JArr _ => "array"
  | JObj _ => "object"
  end.

Definition invalid_type (expected : String.string) (v : JsValue) : JsValue :=
  JObj {[ "code" := JStr "invalid_type";
          "expected" := JStr expected;
          "received" := JStr (parsedType v);
          "path" := JArr [];
          "message" :=
            JStr match v with
                 | JUndefined => "Required"
                 | _ => "Expected " +:+ expected +:+ ", received " +:+ parsedType v
                 end ]}.

Definition too_small (minimum : nat) : JsValue :=
  JObj {[ "code" := JStr "too_small";
          "minimum" := JNum (Z.of_nat minimum);
          "type" := JStr "string";
          "inclusive" := JBool true;
          "exact" := JBool false;
          "message" :=
            JStr ("String must contain at least " +:+ pretty minimum +:+ " character(s)");
          "path" := JArr [] ]}.

Definition too_big (maximum : nat) : JsValue :=
  JObj {[ "code" := JStr "too_big";
          "maximum" := JNum (Z.of_nat maximum);
          "type" := JStr "string";
          "inclusive" := JBool true;
          "exact" := JBool false;
          "message" :=
            JStr ("String must contain at most " +:+ pretty maximum +:+ " character(s)");
          "path" := JArr [] ]}.

(** One check on the string [data]: [data.length < value] for [min],
    [data.length > value] for [max]. *)
Definition check_issue (data : String.string) (check : StringCheck) : list JsValue :=
  match check with
  | Min value => if (String.length data <? value)%nat then [too_small value] else []
  | Max value => if (value <? String.length data)%nat then [too_big value] else []
  end.

(** A value that is not a string is refused at once; on a string every
    check runs and every issue is collected. *)
Definition string_issues (schema : ZodString) (input : JsValue) : list JsValue :=
  match input with
  | JStr data => checks schema ≫= check_issue data
  | _ => [invalid_type "string" input]
  end.

(** [parseAsync]: the value when there is no issue, a thrown [ZodError]
    with all the issues otherwise. *)
Definition settle (issues : list JsValue) (value : JsValue) : Outcome JsValue :=
  match issues with
  | [] => Returned value
  | _ => Raised (ZodError issues)
  end.

Definition schema (s : ZodString) : ZodSchema :=
  {| parseAsync input := settle (string_issues s input) input |}.

(** [.nullable()]: [null] is accepted as it is, anything else goes to
    the inner schema. *)
Definition nullable (inner : ZodSchema) : ZodSchema :=
  {| parseAsync input :=
       match input with
       | JNull => Returned JNull
       | _ => parseAsync inner input
       end |}.

(** [.min(value)] and [.max(value)] *)
Definition min (value : nat) (s : ZodString) : ZodString :=
  {| checks := checks s ++ [Min value] |}.

Definition max (value : nat) (s : ZodString) : ZodString :=
  {| checks := checks s ++ [Max value] |}.

(** [z.string()] *)
Definition string : ZodString := {| checks := [] |}.

End z.

Coercion z.schema : z.ZodString >-> ZodSchema.

Definition zString : ZodSchema := z.max 255 (z.min 1 z.string).

Definition zNullableString : ZodSchema := z.nullable (z.max 255 z.string).

Definition zName : ZodSchema := z.max 100 (z.min 1 z.string).

Definition zNullableDescription : ZodSchema := z.nullable (z.max 500 z.string).

Definition zPhone : ZodSchema := z.nullable (z.max 20 z.string).

(** A value that a schema accepts, and what it is parsed to. *)
Definition accepts (schema : ZodSchema) (input : JsValue) : Prop :=
  parseAsync schema input = Returned input.

(* ===================================================================== *)
(** * Properties of the validation pipeline *)
(* ===================================================================== *)

Ltac run_outcome :=
  unfold mbind, mret, Outcome_bind, Outcome_ret, try_catch; simpl.

Lemma lookup_spread (target source : gmap string JsValue) (k : string) :
  spread target source !! k =
  match source !! k with
  | Some v => Some v
  | None => target !! k
  end.
Proof.
  unfold spread. rewrite lookup_union.
  destruct (source !! k), (target !! k); reflexivity.
Qed.

Lemma merge_lookup (req : Request) (k : string) :
  CrudController.merge req !! k =
  match own_props (req_body req) !! k with
  | Some v => Some v
  | None =>
      match req_query req !! k with
      | Some v => Some v
      | None => req_params req !! k
      end
  end.
Proof.
  unfold CrudController.merge. rewrite !lookup_spread, lookup_empty.
  destruct (own_props (req_body req) !! k); [reflexivity|].
  destruct (req_query req !! k); [reflexivity|].
  destruct (req_params req !! k); reflexivity.
Qed.

(** What [validate] does, by the outcome of the schema. *)
Lemma validate_resolved this req schema operation v :
  parseAsync schema (JObj (CrudController.merge req)) = Returned v →
  CrudController.validate this req schema operation =
  Returned (Some {| credential := {| idAccount := 1; idUser := 1 |}; params := v |}, None).
Proof. intros H. unfold CrudController.validate. rewrite H. reflexivity. Qed.

Lemma validate_rejected this req schema operation e :
  parseAsync schema (JObj (CrudController.merge req)) = Raised e →
  CrudController.validate this req schema operation =
  (errors ← get e "errors";
   mret (None, Some {| statusCode := 400; code := "VALIDATION_ERROR";
                       message := "Validation failed"; details := errors |})).
Proof. intros H. unfold CrudController.validate. rewrite H. reflexivity. Qed.

Lemma call_validate entry this req schema :
  ∃ operation,
    CrudController.call entry this req schema =
    CrudController.validate this req schema operation.
Proof.
  destruct entry;
    [exists "CREATE" | exists "READ" | exists "UPDATE" | exists "DELETE"]; reflexivity.
Qed.

Lemma get_not_nullish e k : is_nullish e = false → ∃ v, get e k = Returned v.
Proof. destruct e; simpl; intros H; try discriminate H; eexists; reflexivity. Qed.

Lemma get_ZodError_errors issues : get (ZodError issues) "errors" = Returned (JArr issues).
Proof. reflexivity. Qed.

Lemma validate_exactly_one this req schema operation r :
  CrudController.validate this req schema operation = Returned r → exactly_one_slot r.
Proof.
  destruct (parseAsync schema (JObj (CrudController.merge req))) as [v|e] eqn:Hparse.
  - rewrite (validate_resolved _ _ _ _ _ Hparse). intros [= <-].
    left. split; [eexists; reflexivity | reflexivity].
  - rewrite (validate_rejected _ _ _ _ _ Hparse).
    destruct (get e "errors") as [errors|failure]; run_outcome; [|discriminate].
    intros [= <-]. right. split; [reflexivity | eexists; reflexivity].
Qed.

(** C1.  Each of the four entry points (create, read, update, delete)
    answers schema-valid input with the tuple (result, null), where the
    result holds the credential and the validated parameters, and input
    that violates the schema with the tuple (null, error); a tuple it
    returns never has both slots populated and never neither.  (The
    second slot is also the answer to any other failure of the schema
    that is not [null] or [undefined].) *)
Theorem entry_points_one_slot (entry : CrudController.EntryPoint)
  (this : CrudController.t) (req : Request) (schema : ZodSchema) :
  (∀ v, parseAsync schema (JObj (CrudController.merge req)) = Returned v →
        CrudController.call entry this req schema =
        Returned (Some {| credential := {| idAccount := 1; idUser := 1 |}; params := v |},
                  None))
  ∧ (∀ issues,
        parseAsync schema (JObj (CrudController.merge req)) = Raised (ZodError issues) →
        CrudController.call entry this req schema =
        Returned (None,
                  Some {| statusCode := 400; code := "VALIDATION_ERROR";
                          message := "Validation failed"; details := JArr issues |}))
  ∧ (∀ e,
        parseAsync schema (JObj (CrudController.merge req)) = Raised e →
        is_nullish e = false →
        ∃ failure, CrudController.call entry this req schema = Returned (None, Some failure))
  ∧ (∀ r, CrudController.call entry this req schema = Returned r → exactly_one_slot r).
Proof.
  destruct (call_validate entry this req schema) as [operation ->].
  split; [|split; [|split]].
  - intros v Hv. exact (validate_resolved _ _ _ _ _ Hv).
  - intros issues Hi. rewrite (validate_rejected _ _ _ _ _ Hi).
    rewrite get_ZodError_errors. reflexivity.
  - intros e He Hnn. rewrite (validate_rejected _ _ _ _ _ He).
    destruct (get_not_nullish e "errors" Hnn) as [errors ->].
    eexists. reflexivity.
  - apply validate_exactly_one.
Qed.

Lemma entry_points_one_slot_witness :
  CrudController.update controller collisionRequest idSchema =
    Returned (Some {| credential := {| idAccount := 1; idUser := 1 |};
                      params := JObj {[ "id" := JNum 3 ]} |}, None)
  ∧ CrudController.create controller emptyRequest idSchema =
    Returned (None,
              Some {| statusCode := 400; code := "VALIDATION_ERROR";
                      message := "Validation failed";
                      details := JArr [issue "invalid_type" "id"
                                         "Expected number, received nan"] |})
  ∧ exactly_one_slot
      (None,
       Some {| statusCode := 400; code := "VALIDATION_ERROR";
               message := "Validation failed";
               details := JArr [issue "invalid_type" "id"
                                  "Expected number, received nan"] |}).
Proof.
  destruct (entry_points_one_slot CrudController.Update controller collisionRequest idSchema)
    as (Hvalid & _).
  destruct (entry_points_one_slot CrudController.Create controller emptyRequest idSchema)
    as (_ & Hviolating & _ & Hone).
  split; [|split].
  - apply Hvalid. reflexivity.
  - apply Hviolating. reflexivity.
  - apply Hone. apply Hviolating. reflexivity.
Defined.

(** C2, as stated, fails.  A schema whose refinement throws an ordinary
    [Error] is answered with [details] undefined, not with a list of field
    violations; a schema that throws [null] makes [validate] itself raise
    (the [catch] block reads [error.errors]). *)
Lemma validate_foreign_failure_counterexample :
  (¬ ∃ violations,
       CrudController.validate controller emptyRequest (throwingSchema plainError) "CREATE" =
       Returned (None,
                 Some {| statusCode := 400; code := "VALIDATION_ERROR";
                         message := "Validation failed"; details := JArr violations |}))
  ∧ CrudController.validate controller emptyRequest (throwingSchema plainError) "CREATE" =
    Returned (None,
              Some {| statusCode := 400; code := "VALIDATION_ERROR";
                      message := "Validation failed"; details := JUndefined |})
  ∧ CrudController.validate controller emptyRequest (throwingSchema JNull) "CREATE" =
    Raised (TypeError "Cannot read properties of null (reading 'errors')").
Proof.
  split; [|split]; [|reflexivity|reflexivity].
  intros [violations H]. vm_compute in H. discriminate H.
Qed.

(** C2, amended.  When the schema fails with any value other than [null]
    and [undefined], [validate] does not raise: it returns the tuple
    (null, error) with statusCode 400, code VALIDATION_ERROR, message
    'Validation failed' and, as details, the [errors] property of the
    failure, which is the list of field violations when the failure is a
    ZodError. *)
Theorem validate_converts_failure (this : CrudController.t) (req : Request)
  (schema : ZodSchema) (operation : string) (e : JsValue) :
  parseAsync schema (JObj (CrudController.merge req)) = Raised e →
  is_nullish e = false →
  ∃ errors,
    get e "errors" = Returned errors
    ∧ CrudController.validate this req schema operation =
      Returned (None,
                Some {| statusCode := 400; code := "VALIDATION_ERROR";
                        message := "Validation failed"; details := errors |})
    ∧ (∀ issues, e = ZodError issues → errors = JArr issues).
Proof.
  intros Hparse Hnn.
  destruct (get_not_nullish e "errors" Hnn) as [errors Herrors].
  exists errors. split; [exact Herrors|]. split.
  - rewrite (validate_rejected _ _ _ _ _ Hparse), Herrors. reflexivity.
  - intros issues ->. rewrite get_ZodError_errors in Herrors. congruence.
Qed.

Lemma validate_converts_failure_witness :
  ∃ errors,
    get (ZodError [issue "invalid_type" "id" "Expected number, received nan"]) "errors" =
    Returned errors
    ∧ CrudController.validate controller emptyRequest idSchema "DELETE" =
      Returned (None,
                Some {| statusCode := 400; code := "VALIDATION_ERROR";
                        message := "Validation failed"; details := errors |})
    ∧ (∀ issues,
         ZodError [issue "invalid_type" "id" "Expected number, received nan"] =
         ZodError issues →
         errors = JArr issues).
Proof.
  apply (validate_converts_failure controller emptyRequest idSchema "DELETE");
    reflexivity.
Defined.

(** C3.  In the merged input a key of the body overrides the same key of
    the query, which overrides the same key of the path parameters.  For
    path {id:"1"}, query {id:"2"}, body {id:"3"} the merged input has the
    body's id, and the coercing schema validates it to the number 3. *)
Theorem merge_body_over_query_over_path :
  (∀ (req : Request) (k : string),
     CrudController.merge req !! k =
     match own_props (req_body req) !! k with
     | Some v => Some v
     | None =>
         match req_query req !! k with
         | Some v => Some v
         | None => req_params req !! k
         end
     end)
  ∧ CrudController.merge collisionRequest !! "id" = Some (JStr "3")
  ∧ coerce_number (JStr "3") = Some 3
  ∧ ∀ entry,
      CrudController.call entry controller collisionRequest idSchema =
      Returned (Some {| credential := {| idAccount := 1; idUser := 1 |};
                        params := JObj {[ "id" := JNum 3 ]} |}, None).
Proof.
  split; [exact merge_lookup|]. split; [reflexivity|]. split; [reflexivity|].
  intros entry. destruct entry; reflexivity.
Qed.

(* ===================================================================== *)
(** * Properties of the database gateway *)
(* ===================================================================== *)

Ltac run_action :=
  unfold mbind, mret, Action_bind, Action_ret, try_catch_st, lift, throw; simpl.

(** [dbRequest] on a call that reaches the driver: the shaped result, or
    the [catch] block (one console line, then the same failure again). *)
Lemma dbRequest_executes drv routine parameters expectedReturn transaction resultSetNames
  st outcome st' :
  executes drv routine parameters transaction st outcome st' →
  dbRequest drv routine parameters expectedReturn transaction resultSetNames st =
  match outcome ≫= shape expectedReturn resultSetNames with
  | Returned v => (Returned v, st')
  | Raised error =>
      match get error "message" with
      | Returned error_message =>
          (Raised error,
           with_line ("Database error:",
                      JObj {[ "routine" := JStr routine;
                              "error" := error_message;
                              "parameters" := parameters ]}) st')
      | Raised e => (Raised e, st')
      end
  end.
Proof.
  intros (currentPool & Hpool & Hparams & Hexec).
  unfold dbRequest, try_catch_st.
  unfold mbind at 1, Action_bind. rewrite Hpool.
  unfold bind_inputs. rewrite Hparams. run_action. rewrite Hexec.
  destruct outcome as [result|error]; simpl.
  - destruct (shape expectedReturn resultSetNames result) as [v|error]; [reflexivity|].
    unfold console_error. destruct (get error "message"); reflexivity.
  - unfold console_error. destruct (get error "message"); reflexivity.
Qed.

Lemma namedResults_snoc (names : list string) (name : string) (result : IResult) :
  namedResults (names ++ [name]) result =
  assign (namedResults names result) name (recordsets_at result (length names)).
Proof.
  unfold namedResults. rewrite imap_app, foldl_app. simpl.
  rewrite Nat.add_0_r. reflexivity.
Qed.

Lemma lookup_assign (object : gmap string JsValue) (name k : string) (value : JsValue) :
  name ≠ "__proto__" →
  assign object name value !! k = if decide (name = k) then Some value else object !! k.
Proof.
  intros Hname. unfold assign. rewrite decide_False by exact Hname.
  apply lookup_insert.
Qed.

Lemma lookup_assign_ne (object : gmap string JsValue) (name k : string) (value : JsValue) :
  name ≠ k → assign object name value !! k = object !! k.
Proof.
  intros Hne. unfold assign. destruct (decide (name = "__proto__")); [reflexivity|].
  apply lookup_insert_ne. exact Hne.
Qed.

(** The label written last wins: a label other than [__proto__] is
    mapped to the result set at the position of its last occurrence. *)
Lemma namedResults_last (names : list string) (result : IResult) (i : nat) (name : string) :
  names !! i = Some name →
  name ≠ "__proto__" →
  (∀ j, (i < j)%nat → names !! j ≠ Some name) →
  namedResults names result !! name = Some (recordsets_at result i).
Proof.
  intros Hi Hname. revert i Hi.
  induction names as [|x names IH] using rev_ind; intros i Hi Hlast.
  - rewrite lookup_nil in Hi. discriminate Hi.
  - rewrite namedResults_snoc.
    destruct (decide (i = length names)) as [->|Hne].
    + rewrite lookup_app_r, Nat.sub_diag in Hi by lia. simpl in Hi.
      injection Hi as ->. rewrite lookup_assign by exact Hname.
      rewrite decide_True by reflexivity. reflexivity.
    + assert (i < length names)%nat as Hlt.
      { apply lookup_lt_Some in Hi. rewrite length_app in Hi. simpl in Hi. lia. }
      rewrite lookup_app_l in Hi by exact Hlt.
      assert (x ≠ name) as Hx.
      { intros ->. apply (Hlast (length names) Hlt).
        rewrite lookup_app_r, Nat.sub_diag by lia. reflexivity. }
      rewrite lookup_assign_ne by exact Hx.
      apply IH; [exact Hi|].
      intros j Hj Hnj. apply (Hlast j Hj).
      rewrite lookup_app_l; [exact Hnj|]. apply lookup_lt_Some in Hnj. exact Hnj.
Qed.

(** The name [__proto__] never becomes an own key. *)
Lemma namedResults_proto (names : list string) (result : IResult) :
  namedResults names result !! "__proto__" = None.
Proof.
  induction names as [|x names IH] using rev_ind.
  - reflexivity.
  - rewrite namedResults_snoc. unfold assign.
    destruct (decide (x = "__proto__")) as [->|Hne]; [exact IH|].
    rewrite lookup_insert_ne by exact Hne. exact IH.
Qed.

Lemma recordsets_at_short (result : IResult) (i : nat) :
  (length (recordsets result) ≤ i)%nat → recordsets_at result i = JUndefined.
Proof.
  intros Hle. unfold recordsets_at, recordsets_value.
  rewrite lookup_ge_None_2; [reflexivity|]. rewrite length_fmap. exact Hle.
Qed.

Lemma recordsets_at_set (result : IResult) (i : nat) (records : list JsValue) :
  recordsets result !! i = Some records → recordsets_at result i = JArr records.
Proof.
  intros H. unfold recordsets_at, recordsets_value.
  rewrite list_lookup_fmap, H. reflexivity.
Qed.

(** C5, as stated, fails when a label is repeated: with the labels
    ["a"; "a"] and two result sets, the label at position 0 is mapped to
    the result set at position 1.  It also fails for the label
    [__proto__], which is mapped to nothing at all: the object has no
    such key. *)
Lemma dbRequest_multi_repeated_label_counterexample :
  (∃ named st',
     dbRequest (stubDriver (Returned twoSets)) "[dbo].[spTaskList]" (JObj ∅)
       ExpectedReturn.Multi None (Some ["a"; "a"]) initial =
     (Returned (JObj named), st')
     ∧ ["a"; "a"] !! 0%nat = Some "a"
     ∧ recordsets twoSets !! 0%nat = Some [row 1]
     ∧ named !! "a" = Some (JArr [row 2])
     ∧ named !! "a" ≠ Some (JArr [row 1]))
  ∧ ∃ named st',
      dbRequest (stubDriver (Returned twoSets)) "[dbo].[spTaskList]" (JObj ∅)
        ExpectedReturn.Multi None (Some ["__proto__"; "tags"]) initial =
      (Returned (JObj named), st')
      ∧ named !! "__proto__" = None
      ∧ named !! "tags" = Some (JArr [row 2]).
Proof.
  split.
  - eexists _, _. split; [reflexivity|]. split; [reflexivity|]. split; [reflexivity|].
    split; [reflexivity|].
    intros H. vm_compute in H. discriminate H.
  - eexists _, _. split; [reflexivity|]. split; reflexivity.
Qed.

Section Executed.

(** A call whose routine is executed by the driver and answered with
    [result]; [st'] is the state once the pool is there. *)
Context (drv : Driver) (routine : string) (parameters : JsValue).
Context (transaction : option Transaction) (st st' : State) (result : IResult).
Hypothesis Hexecuted : executes drv routine parameters transaction st (Returned result) st'.

Lemma dbRequest_shaped expectedReturn resultSetNames v :
  shape expectedReturn resultSetNames result = Returned v →
  dbRequest drv routine parameters expectedReturn transaction resultSetNames st =
  (Returned v, st').
Proof.
  intros Hshape. rewrite (dbRequest_executes _ _ _ _ _ _ _ _ _ Hexecuted).
  unfold mbind, Outcome_bind. rewrite Hshape. reflexivity.
Qed.

(** C4.  With the expected shape Single, a routine whose first result set
    has no records makes [dbRequest] succeed with [undefined]. *)
Theorem dbRequest_single_empty (resultSetNames : option (list string))
  (others : list (list JsValue)) :
  recordsets result = [] :: others →
  dbRequest drv routine parameters ExpectedReturn.Single transaction resultSetNames st =
  (Returned JUndefined, st').
Proof.
  intros Hsets. apply dbRequest_shaped.
  unfold shape, recordset, recordsets_value. rewrite Hsets. reflexivity.
Qed.

(** C5, amended.  With the expected shape Multi and a non-empty list of
    labels, [dbRequest] succeeds with an object in which every label
    other than [__proto__] is mapped to the result set at the position of
    its last occurrence in the list, hence, when the labels are pairwise
    distinct, the label at position i to the result set at position i; a
    label whose position has no result set is mapped to [undefined], and
    the shortfall raises nothing. *)
Theorem dbRequest_multi_labelled (names : list string) :
  (0 < length names)%nat →
  ∃ named,
    dbRequest drv routine parameters ExpectedReturn.Multi transaction (Some names) st =
    (Returned (JObj named), st')
    ∧ (∀ i name,
         names !! i = Some name →
         name ≠ "__proto__" →
         (∀ j, (i < j)%nat → names !! j ≠ Some name) →
         named !! name = Some (recordsets_at result i))
    ∧ (NoDup names →
       ∀ i name,
         names !! i = Some name →
         name ≠ "__proto__" →
         match recordsets result !! i with
         | Some records => get (JObj named) name = Returned (JArr records)
         | None => get (JObj named) name = Returned JUndefined
         end).
Proof.
  intros Hlen. exists (namedResults names result).
  split; [|split].
  - apply dbRequest_shaped. unfold shape, names_given.
    rewrite bool_decide_true by exact Hlen. reflexivity.
  - intros i name. apply namedResults_last.
  - intros Hnodup i name Hi Hname.
    assert (namedResults names result !! name = Some (recordsets_at result i)) as Hnamed.
    { apply namedResults_last; [exact Hi|exact Hname|].
      intros j Hj Hnj. pose proof (NoDup_lookup _ _ _ _ Hnodup Hi Hnj). lia. }
    simpl. rewrite Hnamed. simpl.
    destruct (recordsets result !! i) as [records|] eqn:Hset.
    + rewrite (recordsets_at_set _ _ _ Hset). reflexivity.
    + rewrite recordsets_at_short; [reflexivity|].
      apply lookup_ge_None_1. exact Hset.
Qed.

End Executed.

Lemma dbRequest_single_empty_witness :
  dbRequest (stubDriver (Returned emptyFirstSet)) "[dbo].[spTaskGet]"
    (JObj {[ "idTask" := JNum 7 ]}) ExpectedReturn.Single None None initial =
  (Returned JUndefined,
   {| pool := Some (PoolHandle 0); connects := 1; console := []; scopes := ∅ |}).
Proof.
  apply dbRequest_single_empty with (result := emptyFirstSet) (others := []);
    [|reflexivity].
  exists (PoolHandle 0). split; [reflexivity|]. split; reflexivity.
Defined.

Lemma dbRequest_multi_labelled_witness :
  ∃ named,
    dbRequest (stubDriver (Returned twoSets)) "[dbo].[spTaskList]" (JObj ∅)
      ExpectedReturn.Multi None (Some ["tasks"; "tags"; "totals"]) initial =
    (Returned (JObj named),
     {| pool := Some (PoolHandle 0); connects := 1; console := []; scopes := ∅ |})
    ∧ (∀ i name,
         ["tasks"; "tags"; "totals"] !! i = Some name →
         name ≠ "__proto__" →
         (∀ j, (i < j)%nat → ["tasks"; "tags"; "totals"] !! j ≠ Some name) →
         named !! name = Some (recordsets_at twoSets i))
    ∧ (NoDup ["tasks"; "tags"; "totals"] →
       ∀ i name,
         ["tasks"; "tags"; "totals"] !! i = Some name →
         name ≠ "__proto__" →
         match recordsets twoSets !! i with
         | Some records => get (JObj named) name = Returned (JArr records)
         | None => get (JObj named) name = Returned JUndefined
         end).
Proof.
  apply dbRequest_multi_labelled.
  - exists (PoolHandle 0). split; [reflexivity|]. split; reflexivity.
  - simpl. lia.
Defined.

(** C10.  With the expected shape Multi, a label list that is present
    but empty is treated as no label list: [dbRequest] behaves the same in
    both cases, and when the routine is executed it returns the full
    ordered sequence of result sets, not a labelled object. *)
Theorem dbRequest_multi_empty_labels (drv : Driver) (routine : string)
  (parameters : JsValue) (transaction : option Transaction) (st : State) :
  dbRequest drv routine parameters ExpectedReturn.Multi transaction (Some []) st =
  dbRequest drv routine parameters ExpectedReturn.Multi transaction None st
  ∧ ∀ result st',
      executes drv routine parameters transaction st (Returned result) st' →
      dbRequest drv routine parameters ExpectedReturn.Multi transaction (Some []) st =
      (Returned (JArr (JArr <$> recordsets result)), st').
Proof.
  split; [reflexivity|].
  intros result st' Hexec.
  rewrite (dbRequest_executes _ _ _ _ _ _ _ _ _ Hexec). reflexivity.
Qed.

Lemma dbRequest_multi_empty_labels_witness :
  dbRequest (stubDriver (Returned twoSets)) "[dbo].[spTaskList]" (JObj ∅)
    ExpectedReturn.Multi None (Some []) initial =
  (Returned (JArr [JArr [row 1]; JArr [row 2]]),
   {| pool := Some (PoolHandle 0); connects := 1; console := []; scopes := ∅ |}).
Proof.
  destruct (dbRequest_multi_empty_labels (stubDriver (Returned twoSets))
              "[dbo].[spTaskList]" (JObj ∅) None initial) as [_ Hfull].
  apply (Hfull twoSets).
  exists (PoolHandle 0). split; [reflexivity|]. split; reflexivity.
Defined.

Ltac not_attached :=
  let k := fresh "k" in
  let H := fresh "H" in
  intros [k H]; simpl in H; injection H as H; revert H;
  rewrite ?lookup_insert, ?lookup_singleton; repeat case_decide; simpl; discriminate.

(** C6, as stated, fails.  When the driver rejects the call, the failure
    that leaves [dbRequest] is the driver's own failure, not a wrapper
    around it, and neither the routine name nor the parameter set is
    attached to it; both go to the console line instead. *)
Lemma dbRequest_rethrows_counterexample :
  dbRequest (stubDriver (Raised requestError)) "[dbo].[spTaskGet]"
    (JObj {[ "idTask" := JNum 7 ]}) ExpectedReturn.Single None None initial =
  (Raised requestError,
   {| pool := Some (PoolHandle 0); connects := 1;
      console := [("Database error:",
                   JObj {[ "routine" := JStr "[dbo].[spTaskGet]";
                           "error" := JStr "Could not find stored procedure";
                           "parameters" := JObj {[ "idTask" := JNum 7 ]} ]})];
      scopes := ∅ |})
  ∧ ¬ attached_to requestError requestError
  ∧ ¬ attached_to requestError (JStr "[dbo].[spTaskGet]")
  ∧ ¬ attached_to requestError (JObj {[ "idTask" := JNum 7 ]}).
Proof.
  split; [reflexivity|]. unfold requestError.
  split; [|split]; not_attached.
Qed.

(** C6, amended.  When the driver-level execution of the routine fails
    with a failure other than [null] and [undefined], [dbRequest] fails
    with that same failure, unchanged, after writing one console line
    that carries the routine name, the failure's message and the
    parameter set as it was passed in. *)
Theorem dbRequest_rethrows_driver_failure (drv : Driver) (routine : string)
  (parameters : JsValue) (expectedReturn : ExpectedReturn.t)
  (transaction : option Transaction) (resultSetNames : option (list string))
  (st st' : State) (e : JsValue) :
  executes drv routine parameters transaction st (Raised e) st' →
  is_nullish e = false →
  ∃ error_message,
    get e "message" = Returned error_message
    ∧ dbRequest drv routine parameters expectedReturn transaction resultSetNames st =
      (Raised e,
       {| pool := pool st'; connects := connects st';
          console := console st' ++
                     [("Database error:",
                       JObj {[ "routine" := JStr routine;
                               "error" := error_message;
                               "parameters" := parameters ]})];
          scopes := scopes st' |}).
Proof.
  intros Hexec Hnn.
  destruct (get_not_nullish e "message" Hnn) as [error_message Hmessage].
  exists error_message. split; [exact Hmessage|].
  rewrite (dbRequest_executes _ _ _ _ _ _ _ _ _ Hexec).
  unfold mbind, Outcome_bind. rewrite Hmessage. reflexivity.
Qed.

Lemma dbRequest_rethrows_driver_failure_witness :
  ∃ error_message,
    get requestError "message" = Returned error_message
    ∧ dbRequest (stubDriver (Raised requestError)) "[dbo].[spTaskSave]"
        (JObj {[ "title" := JStr "secret" ]}) ExpectedReturn.None None None initial =
      (Raised requestError,
       {| pool := Some (PoolHandle 0); connects := 1;
          console := [] ++
                     [("Database error:",
                       JObj {[ "routine" := JStr "[dbo].[spTaskSave]";
                               "error" := error_message;
                               "parameters" := JObj {[ "title" := JStr "secret" ]} ]})];
          scopes := ∅ |}).
Proof.
  apply (dbRequest_rethrows_driver_failure (stubDriver (Raised requestError))
           "[dbo].[spTaskSave]" (JObj {[ "title" := JStr "secret" ]})
           ExpectedReturn.None None None initial
           {| pool := Some (PoolHandle 0); connects := 1; console := []; scopes := ∅ |}).
  - exists (PoolHandle 0). split; [reflexivity|]. split; reflexivity.
  - reflexivity.
Defined.

Lemma getPool_cached drv st p : pool st = Some p → getPool drv st = (Returned p, st).
Proof. intros H. unfold getPool, read_pool. run_action. rewrite H. reflexivity. Qed.

Lemma getPool_times_cached drv n st p :
  pool st = Some p → getPool_times drv n st = (replicate n (Returned p), st).
Proof.
  intros H. induction n as [|n IH]; simpl; [reflexivity|].
  rewrite (getPool_cached drv st p H), IH. reflexivity.
Qed.

Lemma getPool_inv drv st p st' :
  getPool drv st = (Returned p, st') →
  (pool st = Some p ∧ st' = st)
  ∨ (pool st = None
     ∧ sql_connect drv (connects st) = Returned p
     ∧ st' = {| pool := Some p; connects := S (connects st); console := console st;
                scopes := scopes st |}).
Proof.
  unfold getPool, read_pool, connect, write_pool. run_action.
  destruct (pool st) as [q|] eqn:Hpool.
  - intros [= -> <-]. left. split; reflexivity.
  - destruct (sql_connect drv (connects st)) as [q|e]; [|discriminate].
    intros [= -> <-]. right. split; [reflexivity|]. split; reflexivity.
Qed.

Lemma getPool_failed drv st e :
  pool st = None →
  sql_connect drv (connects st) = Raised e →
  getPool drv st =
  (Raised e,
   {| pool := None; connects := S (connects st); console := console st;
      scopes := scopes st |}).
Proof.
  intros Hpool Hconnect. unfold getPool, read_pool, connect. run_action.
  rewrite Hpool. simpl. rewrite Hconnect, Hpool. reflexivity.
Qed.

Lemma getPool_connected drv st p :
  pool st = None →
  sql_connect drv (connects st) = Returned p →
  getPool drv st =
  (Returned p,
   {| pool := Some p; connects := S (connects st); console := console st;
      scopes := scopes st |}).
Proof.
  intros Hpool Hconnect. unfold getPool, read_pool, connect, write_pool. run_action.
  rewrite Hpool, Hconnect. reflexivity.
Qed.

(** A run of calls from a state without a pool: the calls fail, each
    with the failure of its own connection attempt, until an attempt
    succeeds; from then on they all return the pool of that one attempt,
    and no further attempt is made. *)
Lemma getPool_times_run drv n st :
  pool st = None →
  (∃ errs,
     (getPool_times drv n st).1 = Raised <$> errs
     ∧ length errs = n
     ∧ (∀ i e, errs !! i = Some e → sql_connect drv (connects st + i) = Raised e)
     ∧ pool (getPool_times drv n st).2 = None
     ∧ connects (getPool_times drv n st).2 = (connects st + n)%nat)
  ∨ (∃ errs p m,
       (getPool_times drv n st).1 = (Raised <$> errs) ++ replicate (S m) (Returned p)
       ∧ n = (length errs + S m)%nat
       ∧ (∀ i e, errs !! i = Some e → sql_connect drv (connects st + i) = Raised e)
       ∧ sql_connect drv (connects st + length errs) = Returned p
       ∧ pool (getPool_times drv n st).2 = Some p
       ∧ connects (getPool_times drv n st).2 = (connects st + S (length errs))%nat).
Proof.
  revert st. induction n as [|n IH]; intros st Hpool.
  - left. exists []. simpl. rewrite Nat.add_0_r.
    split; [reflexivity|]. split; [reflexivity|]. split; [|split; [exact Hpool|reflexivity]].
    intros i e Hi. rewrite lookup_nil in Hi. discriminate Hi.
  - simpl. destruct (sql_connect drv (connects st)) as [p|e] eqn:Hconnect.
    + rewrite (getPool_connected _ _ _ Hpool Hconnect).
      rewrite (getPool_times_cached drv n _ p) by reflexivity. simpl.
      right. exists [], p, n. simpl. rewrite Nat.add_0_r.
      split; [reflexivity|]. split; [reflexivity|].
      split; [|split; [exact Hconnect|split; [reflexivity|lia]]].
      intros i e Hi. rewrite lookup_nil in Hi. discriminate Hi.
    + rewrite (getPool_failed _ _ _ Hpool Hconnect).
      set (st1 := {| pool := None; connects := S (connects st); console := console st;
                     scopes := scopes st |}).
      assert (∀ errs,
                (∀ i e0, errs !! i = Some e0 →
                         sql_connect drv (connects st1 + i) = Raised e0) →
                ∀ i e0, (e :: errs) !! i = Some e0 →
                        sql_connect drv (connects st + i) = Raised e0) as Hshift.
      { intros errs Herrs [|i] e0 Hi; simpl in Hi.
        - injection Hi as <-. rewrite Nat.add_0_r. exact Hconnect.
        - rewrite <- (Herrs i e0 Hi). f_equal. simpl. lia. }
      destruct (IH st1 eq_refl) as [(errs & Hos & Hlen & Herrs & Hnone & Hcount)
                                   |(errs & p & m & Hos & Hn & Herrs & Hok & Hsome & Hcount)];
        destruct (getPool_times drv n st1) as [os st2]; simpl in *.
      * left. exists (e :: errs). simpl. rewrite Hos.
        split; [reflexivity|]. split; [lia|]. split; [exact (Hshift errs Herrs)|].
        split; [exact Hnone|lia].
      * right. exists (e :: errs), p, m. simpl. rewrite Hos.
        split; [reflexivity|]. split; [lia|]. split; [exact (Hshift errs Herrs)|].
        split; [|split; [exact Hsome|lia]].
        rewrite <- Hok. f_equal. lia.
Qed.

(** A call that is entered and resumed with nothing in between is
    [getPool]. *)
Lemma getPool_enter_resume drv st :
  getPool drv st =
  getPool_resume drv (getPool_enter drv st).1 (getPool_enter drv st).2.
Proof.
  unfold getPool_enter. destruct (pool st) as [p|] eqn:Hpool; simpl.
  - rewrite (getPool_cached _ _ _ Hpool). reflexivity.
  - destruct (sql_connect drv (connects st)) as [p|e] eqn:Hconnect.
    + rewrite (getPool_connected _ _ _ Hpool Hconnect). reflexivity.
    + rewrite (getPool_failed _ _ _ Hpool Hconnect). reflexivity.
Qed.

(** C7, as stated, fails for calls that overlap.  Two first calls that
    are both entered before either connection attempt has settled each
    call [sql.connect] and each assign the pool variable: with a driver
    that hands out a pool per attempt, the first call creates and returns
    pool 0, the second then replaces it by pool 1, and a call made after
    both returns pool 1, not the pool of the first successful call. *)
Lemma getPool_overlapped_counterexample :
  getPool_overlapped (poolPerAttemptDriver (Returned emptyFirstSet)) initial =
  (Returned (PoolHandle 0),
   {| pool := Some (PoolHandle 0); connects := 2; console := []; scopes := ∅ |},
   (Returned (PoolHandle 1),
    {| pool := Some (PoolHandle 1); connects := 2; console := []; scopes := ∅ |}))
  ∧ (getPool (poolPerAttemptDriver (Returned emptyFirstSet))
       {| pool := Some (PoolHandle 1); connects := 2; console := []; scopes := ∅ |}).1 =
    Returned (PoolHandle 1)
  ∧ connects (getPool_overlapped (stubDriver (Returned emptyFirstSet)) initial).2.2 = 2%nat.
Proof. split; [reflexivity|]. split; reflexivity. Qed.

(** C7, amended.  For calls of [getPool] that do not overlap: a call made
    while the pool variable is empty and whose connection attempt
    succeeds creates the pool, assigns the variable and returns that
    pool; a call that succeeds leaves the variable set to the pool it
    returns, having assigned it in this very call, with one connection
    attempt, only if the variable was still empty; and every later call
    returns that same pool and leaves the whole state, the count of
    connection attempts included, as it is.  Over a whole run of such
    calls from the initial state, every connection attempt but the last
    one failed: the pool is created, and the variable assigned, at most
    once. *)
Theorem getPool_idempotent (drv : Driver) :
  (∀ (st : State) (p : ConnectionPool),
     pool st = None →
     sql_connect drv (connects st) = Returned p →
     getPool drv st =
     (Returned p,
      {| pool := Some p; connects := S (connects st); console := console st;
         scopes := scopes st |}))
  ∧ (∀ (st st' : State) (p : ConnectionPool),
       getPool drv st = (Returned p, st') →
       pool st' = Some p
       ∧ ((pool st = Some p ∧ st' = st)
          ∨ (pool st = None ∧ connects st' = S (connects st)))
       ∧ ∀ n, getPool_times drv n st' = (replicate n (Returned p), st'))
  ∧ (∀ st,
       getPool drv st =
       getPool_resume drv (getPool_enter drv st).1 (getPool_enter drv st).2)
  ∧ ∀ n,
      (∃ errs,
         (getPool_times drv n initial).1 = Raised <$> errs
         ∧ length errs = n
         ∧ (∀ i e, errs !! i = Some e → sql_connect drv i = Raised e)
         ∧ pool (getPool_times drv n initial).2 = None
         ∧ connects (getPool_times drv n initial).2 = n)
      ∨ (∃ errs p m,
           (getPool_times drv n initial).1 =
           (Raised <$> errs) ++ replicate (S m) (Returned p)
           ∧ n = (length errs + S m)%nat
           ∧ (∀ i e, errs !! i = Some e → sql_connect drv i = Raised e)
           ∧ sql_connect drv (length errs) = Returned p
           ∧ pool (getPool_times drv n initial).2 = Some p
           ∧ connects (getPool_times drv n initial).2 = S (length errs)).
Proof.
  split; [|split; [|split]].
  - intros st p Hpool Hconnect. exact (getPool_connected _ _ _ Hpool Hconnect).
  - intros st st' p Hcall.
    assert (pool st' = Some p) as Hset.
    { destruct (getPool_inv _ _ _ _ Hcall) as [[Hp ->]|(_ & _ & ->)];
        [exact Hp|reflexivity]. }
    split; [exact Hset|]. split.
    + destruct (getPool_inv _ _ _ _ Hcall) as [[Hp ->]|(Hnone & _ & ->)].
      * left. split; [exact Hp|reflexivity].
      * right. split; [exact Hnone|reflexivity].
    + intros n. apply getPool_times_cached. exact Hset.
  - apply getPool_enter_resume.
  - intros n. exact (getPool_times_run drv n initial eq_refl).
Qed.

Lemma getPool_idempotent_witness :
  getPool (stubDriver (Returned emptyFirstSet)) initial =
  (Returned (PoolHandle 0),
   {| pool := Some (PoolHandle 0); connects := 1; console := []; scopes := ∅ |})
  ∧ pool {| pool := Some (PoolHandle 0); connects := 1; console := []; scopes := ∅ |} =
    Some (PoolHandle 0)
  ∧ ((pool initial = Some (PoolHandle 0)
      ∧ {| pool := Some (PoolHandle 0); connects := 1; console := []; scopes := ∅ |} =
        initial)
     ∨ (pool initial = None
        ∧ connects {| pool := Some (PoolHandle 0); connects := 1; console := [];
                      scopes := ∅ |} = S (connects initial)))
  ∧ ∀ n,
      getPool_times (stubDriver (Returned emptyFirstSet)) n
        {| pool := Some (PoolHandle 0); connects := 1; console := []; scopes := ∅ |} =
      (replicate n (Returned (PoolHandle 0)),
       {| pool := Some (PoolHandle 0); connects := 1; console := []; scopes := ∅ |}).
Proof.
  destruct (getPool_idempotent (stubDriver (Returned emptyFirstSet)))
    as (Hcreate & Hcall & _).
  assert (getPool (stubDriver (Returned emptyFirstSet)) initial =
          (Returned (PoolHandle 0),
           {| pool := Some (PoolHandle 0); connects := 1; console := []; scopes := ∅ |}))
    as Hfirst by (apply (Hcreate initial (PoolHandle 0)); reflexivity).
  split; [exact Hfirst|]. exact (Hcall initial _ _ Hfirst).
Defined.

Lemma terminate_success final transaction st st' :
  terminate final transaction st = (Returned (), st') →
  final ≠ Active →
  terminated st' transaction.
Proof.
  destruct transaction as [n]. unfold terminate, terminated.
  destruct (scopes st !! n) as [[| |]|]; try discriminate.
  intros [= <-] Hfinal. simpl. rewrite lookup_insert_eq.
  destruct final; [contradiction|left|right]; reflexivity.
Qed.

(** A scope is terminated by the first commit or rollback that goes
    through. *)
Lemma commit_or_rollback_terminates transaction st st' :
  commitTransaction transaction st = (Returned (), st')
  ∨ rollbackTransaction transaction st = (Returned (), st') →
  terminated st' transaction.
Proof.
  intros [H|H]; eapply terminate_success; try exact H; discriminate.
Qed.

Example begin_then_commit :
  beginTransaction (stubDriver (Returned emptyFirstSet)) initial =
  (Returned (TransactionHandle 0),
   {| pool := Some (PoolHandle 0); connects := 1; console := [];
      scopes := {[ 0%nat := Active ]} |})
  ∧ commitTransaction (TransactionHandle 0)
      {| pool := Some (PoolHandle 0); connects := 1; console := [];
         scopes := {[ 0%nat := Active ]} |} =
    (Returned (),
     {| pool := Some (PoolHandle 0); connects := 1; console := [];
        scopes := <[ 0%nat := Committed ]> {[ 0%nat := Active ]} |}).
Proof. split; reflexivity. Qed.

(** C8.  On a scope that commit or rollback has already terminated,
    [commitTransaction] and [rollbackTransaction] both fail with
    InvalidStateError and change nothing; neither returns normally. *)
Theorem terminated_scope_refused (transaction : Transaction) (st : State) :
  terminated st transaction →
  commitTransaction transaction st = (Raised InvalidStateError, st)
  ∧ rollbackTransaction transaction st = (Raised InvalidStateError, st).
Proof.
  destruct transaction as [n].
  unfold terminated, commitTransaction, rollbackTransaction, transaction_commit,
    transaction_rollback, terminate.
  intros [H|H]; rewrite H; split; reflexivity.
Qed.

Lemma terminated_scope_refused_witness :
  commitTransaction (TransactionHandle 0)
    {| pool := Some (PoolHandle 0); connects := 1; console := [];
       scopes := <[ 0%nat := Committed ]> {[ 0%nat := Active ]} |} =
  (Raised InvalidStateError,
   {| pool := Some (PoolHandle 0); connects := 1; console := [];
      scopes := <[ 0%nat := Committed ]> {[ 0%nat := Active ]} |})
  ∧ rollbackTransaction (TransactionHandle 0)
      {| pool := Some (PoolHandle 0); connects := 1; console := [];
         scopes := <[ 0%nat := Committed ]> {[ 0%nat := Active ]} |} =
    (Raised InvalidStateError,
     {| pool := Some (PoolHandle 0); connects := 1; console := [];
        scopes := <[ 0%nat := Committed ]> {[ 0%nat := Active ]} |}).
Proof.
  apply terminated_scope_refused. left. reflexivity.
Defined.

(* ===================================================================== *)
(** * Properties of the response envelopes *)
(* ===================================================================== *)

(** C9, as stated, fails for the helper: the error object that
    [errorResponse] builds has a message and details but no code. *)
Lemma errorResponse_no_code_counterexample :
  error_envelope_shape
    (errorResponse "Validation failed" JUndefined "2024-01-01T00:00:00.000Z") = false
  ∧ ∃ error,
      get (errorResponse "Validation failed" JUndefined "2024-01-01T00:00:00.000Z") "error" =
      Returned (JObj error)
      ∧ error !! "code" = None.
Proof.
  split; [reflexivity|]. eexists. split; reflexivity.
Qed.

Lemma js_or_string (v : JsValue) (fallback : string) :
  is_string v = true ∨ truthy v = false → is_string (js_or v (JStr fallback)) = true.
Proof.
  unfold js_or. intros [H|H].
  - destruct (truthy v); [exact H|reflexivity].
  - rewrite H. reflexivity.
Qed.

Lemma envelope_shape_of_error (error : gmap string JsValue) (now : string) :
  error_envelope_shape
    (JObj {[ "success" := JBool false; "error" := JObj error; "timestamp" := JStr now ]}) =
  error_object_shape (JObj error).
Proof.
  unfold error_envelope_shape.
  rewrite lookup_insert_eq.
  rewrite lookup_insert_ne, lookup_insert_eq by discriminate.
  rewrite !lookup_insert_ne, lookup_singleton_eq by discriminate.
  simpl. apply andb_true_r.
Qed.

Lemma error_object_shape_of (c m d : JsValue) :
  error_object_shape (JObj {[ "code" := c; "message" := m; "details" := d ]}) =
  is_string c && is_string m.
Proof.
  unfold error_object_shape.
  rewrite lookup_insert_eq.
  rewrite lookup_insert_ne, lookup_insert_eq by discriminate.
  reflexivity.
Qed.

(** C9, amended.  Both producers build {success: false, error,
    timestamp}.  The error object of [errorResponse] holds the message and
    the details and no code.  The error object of [errorMiddleware], for
    every failure other than [null] and [undefined], holds a code, which
    is the failure's own code when that is truthy and
    INTERNAL_SERVER_ERROR otherwise, a message chosen the same way, and
    the details; the envelope has the shape with a code string and a
    message string whenever the failure's code and message are each a
    string or falsy. *)
Theorem error_envelopes (now : string) :
  (∀ (message : string) (details : JsValue),
     ∃ error,
       get (errorResponse message details now) "success" = Returned (JBool false)
       ∧ get (errorResponse message details now) "timestamp" = Returned (JStr now)
       ∧ get (errorResponse message details now) "error" = Returned (JObj error)
       ∧ error !! "message" = Some (JStr message)
       ∧ error !! "details" = Some details
       ∧ error !! "code" = None
       ∧ error_envelope_shape (errorResponse message details now) = false)
  ∧ (∀ (err : JsValue) (req : Request) (NODE_ENV : option string),
       is_nullish err = false →
       ∃ err_code err_message err_details res,
         get err "code" = Returned err_code
         ∧ get err "message" = Returned err_message
         ∧ errorMiddleware err req NODE_ENV now = Returned res
         ∧ res_json res =
           JObj {[ "success" := JBool false;
                   "error" :=
                     JObj {[ "code" := js_or err_code (JStr "INTERNAL_SERVER_ERROR");
                             "message" :=
                               js_or err_message (JStr "An unexpected error occurred");
                             "details" := err_details ]};
                   "timestamp" := JStr now ]}
         ∧ (is_string err_code = true ∨ truthy err_code = false →
            is_string err_message = true ∨ truthy err_message = false →
            error_envelope_shape (res_json res) = true)).
Proof.
  split.
  - intros message details. eexists. repeat split; reflexivity.
  - intros err req NODE_ENV Hnn.
    destruct (get_not_nullish err "statusCode" Hnn) as [err_statusCode Hstatus].
    destruct (get_not_nullish err "code" Hnn) as [err_code Hcode].
    destruct (get_not_nullish err "message" Hnn) as [err_message Hmessage].
    destruct (get_not_nullish err "stack" Hnn) as [err_stack Hstack].
    unfold errorMiddleware. rewrite Hstatus, Hcode, Hmessage, Hstack.
    run_outcome.
    destruct (bool_decide (NODE_ENV = Some "development"));
      rewrite ?Hstack; simpl;
      [exists err_code, err_message, err_stack | exists err_code, err_message, JUndefined];
      eexists; (split; [reflexivity|]); (split; [reflexivity|]);
      (split; [reflexivity|]); (split; [reflexivity|]);
      intros Hc Hm; cbn [res_json];
      rewrite envelope_shape_of_error, error_object_shape_of;
      rewrite (js_or_string _ _ Hc), (js_or_string _ _ Hm); reflexivity.
Qed.

Lemma error_envelopes_witness :
  ∃ err_code err_message err_details res,
    get StatusGeneralError "code" = Returned err_code
    ∧ get StatusGeneralError "message" = Returned err_message
    ∧ errorMiddleware StatusGeneralError emptyRequest (Some "production")
        "2024-01-01T00:00:00.000Z" = Returned res
    ∧ res_json res =
      JObj {[ "success" := JBool false;
              "error" :=
                JObj {[ "code" := js_or err_code (JStr "INTERNAL_SERVER_ERROR");
                        "message" := js_or err_message (JStr "An unexpected error occurred");
                        "details" := err_details ]};
              "timestamp" := JStr "2024-01-01T00:00:00.000Z" ]}
    ∧ (is_string err_code = true ∨ truthy err_code = false →
       is_string err_message = true ∨ truthy err_message = false →
       error_envelope_shape (res_json res) = true).
Proof.
  destruct (error_envelopes "2024-01-01T00:00:00.000Z") as [_ Hmiddleware].
  apply Hmiddleware. reflexivity.
Defined.

(* ===================================================================== *)
(** * Further properties of the database gateway *)
(* ===================================================================== *)

(** [dbRequest] in three steps: the pool, the request, the [catch]. *)
Lemma dbRequest_steps drv routine parameters expectedReturn transaction resultSetNames st :
  dbRequest drv routine parameters expectedReturn transaction resultSetNames st =
  match
    (getPool drv st).1 ≫=
      run_request drv routine parameters expectedReturn transaction resultSetNames
  with
  | Returned v => (Returned v, (getPool drv st).2)
  | Raised error =>
      match get error "message" with
      | Returned error_message =>
          (Raised error,
           with_line (database_error_line routine error_message parameters)
             (getPool drv st).2)
      | Raised e => (Raised e, (getPool drv st).2)
      end
  end.
Proof.
  unfold dbRequest, try_catch_st, run_request, database_error_line.
  unfold mbind at 1, Action_bind.
  destruct (getPool drv st) as [[currentPool|e] st1]; simpl.
  - run_action.
    destruct (bind_inputs parameters) as [inputs|e]; simpl.
    + destruct (request_execute drv (new_Request transaction currentPool) inputs routine)
        as [result|e]; simpl.
      * destruct (shape expectedReturn resultSetNames result) as [v|e]; [reflexivity|].
        unfold console_error. destruct (get e "message"); reflexivity.
      * unfold console_error. destruct (get e "message"); reflexivity.
    + unfold console_error. destruct (get e "message"); reflexivity.
  - run_action. unfold console_error. destruct (get e "message"); reflexivity.
Qed.

(** What [getPool] may do to the state. *)
Lemma getPool_frame drv st :
  scopes (getPool drv st).2 = scopes st
  ∧ console (getPool drv st).2 = console st
  ∧ (∀ p, pool st = Some p → getPool drv st = (Returned p, st))
  ∧ (∀ p, (getPool drv st).1 = Returned p → pool (getPool drv st).2 = Some p).
Proof.
  unfold getPool, read_pool, connect, write_pool. run_action.
  destruct (pool st) as [q|] eqn:Hpool; simpl.
  - repeat split; try reflexivity.
    + intros p [= ->]. reflexivity.
    + intros p [= ->]. exact Hpool.
  - destruct (sql_connect drv (connects st)) as [q|e]; simpl; repeat split;
      try reflexivity; try discriminate.
    intros p [= ->]. reflexivity.
Qed.

(** X1.  A failed connection attempt is not remembered: the failure
    leaves [getPool], the pool variable stays empty, nothing is written
    to the console, and the next call makes a new attempt, whose pool it
    returns when that attempt succeeds. *)
Theorem getPool_failure_not_cached (drv : Driver) (st : State) (e : JsValue) :
  pool st = None →
  sql_connect drv (connects st) = Raised e →
  ∃ st',
    getPool drv st = (Raised e, st')
    ∧ pool st' = None
    ∧ connects st' = S (connects st)
    ∧ console st' = console st
    ∧ ∀ p, sql_connect drv (S (connects st)) = Returned p →
           (getPool drv st').1 = Returned p ∧ pool (getPool drv st').2 = Some p.
Proof.
  intros Hpool Hconnect. eexists. split; [exact (getPool_failed _ _ _ Hpool Hconnect)|].
  split; [reflexivity|]. split; [reflexivity|]. split; [reflexivity|].
  intros p Hnext.
  rewrite (getPool_connected drv _ p); [|reflexivity|exact Hnext].
  split; reflexivity.
Qed.

Lemma getPool_failure_not_cached_witness :
  ∃ st',
    getPool (flakyDriver connectionError (Returned emptyFirstSet)) initial =
    (Raised connectionError, st')
    ∧ pool st' = None
    ∧ connects st' = S (connects initial)
    ∧ console st' = console initial
    ∧ ∀ p, sql_connect (flakyDriver connectionError (Returned emptyFirstSet))
             (S (connects initial)) = Returned p →
           (getPool (flakyDriver connectionError (Returned emptyFirstSet)) st').1 =
           Returned p
           ∧ pool (getPool (flakyDriver connectionError (Returned emptyFirstSet)) st').2 =
             Some p.
Proof.
  apply (getPool_failure_not_cached (flakyDriver connectionError (Returned emptyFirstSet))
           initial connectionError); reflexivity.
Defined.

(** X2.  [dbRequest] asks for the pool first, also when a transaction is
    supplied and whatever the parameters are: when the connection attempt
    fails, the call fails with the connection failure, and one console
    line reports the failure's message.  What the driver would answer to
    the routine has no part in it: every driver whose connection attempt
    has the same outcome gives the same result and the same state. *)
Theorem dbRequest_connection_failure (drv : Driver) (routine : string)
  (parameters : JsValue) (expectedReturn : ExpectedReturn.t)
  (transaction : option Transaction) (resultSetNames : option (list string))
  (st : State) (e : JsValue) :
  pool st = None →
  sql_connect drv (connects st) = Raised e →
  is_nullish e = false →
  ∃ error_message,
    get e "message" = Returned error_message
    ∧ dbRequest drv routine parameters expectedReturn transaction resultSetNames st =
      (Raised e,
       {| pool := None; connects := S (connects st);
          console := console st ++ [database_error_line routine error_message parameters];
          scopes := scopes st |})
    ∧ ∀ drv',
        sql_connect drv' (connects st) = sql_connect drv (connects st) →
        dbRequest drv' routine parameters expectedReturn transaction resultSetNames st =
        dbRequest drv routine parameters expectedReturn transaction resultSetNames st.
Proof.
  intros Hpool Hconnect Hnn.
  destruct (get_not_nullish e "message" Hnn) as [error_message Hmessage].
  exists error_message. split; [exact Hmessage|].
  assert (∀ d, sql_connect d (connects st) = Raised e →
               dbRequest d routine parameters expectedReturn transaction resultSetNames st =
               (Raised e,
                {| pool := None; connects := S (connects st);
                   console := console st ++
                              [database_error_line routine error_message parameters];
                   scopes := scopes st |})) as Hany.
  { intros d Hd. rewrite dbRequest_steps, (getPool_failed _ _ _ Hpool Hd). simpl.
    unfold mbind, Outcome_bind. rewrite Hmessage. reflexivity. }
  split; [exact (Hany drv Hconnect)|].
  intros drv' Hsame. rewrite Hconnect in Hsame.
  rewrite (Hany drv' Hsame), (Hany drv Hconnect). reflexivity.
Qed.

Lemma dbRequest_connection_failure_witness :
  ∃ error_message,
    get connectionError "message" = Returned error_message
    ∧ dbRequest (flakyDriver connectionError (Returned twoSets)) "[dbo].[spTaskList]"
        JNull ExpectedReturn.Multi (Some (TransactionHandle 4)) None initial =
      (Raised connectionError,
       {| pool := None; connects := S (connects initial);
          console := console initial ++
                     [database_error_line "[dbo].[spTaskList]" error_message JNull];
          scopes := scopes initial |})
    ∧ ∀ drv',
        sql_connect drv' (connects initial) =
        sql_connect (flakyDriver connectionError (Returned twoSets)) (connects initial) →
        dbRequest drv' "[dbo].[spTaskList]" JNull ExpectedReturn.Multi
          (Some (TransactionHandle 4)) None initial =
        dbRequest (flakyDriver connectionError (Returned twoSets)) "[dbo].[spTaskList]"
          JNull ExpectedReturn.Multi (Some (TransactionHandle 4)) None initial.
Proof.
  apply (dbRequest_connection_failure (flakyDriver connectionError (Returned twoSets)));
    reflexivity.
Defined.

(** X3.  Parameters that are [null] or [undefined] cannot be bound: once
    the pool is there, [dbRequest] fails with the TypeError of
    [Object.keys] and writes one console line.  What the driver would
    answer to the routine has no part in it: every driver that gives the
    same pool gives the same result and the same state. *)
Theorem dbRequest_nullish_parameters (drv : Driver) (routine : string)
  (parameters : JsValue) (expectedReturn : ExpectedReturn.t)
  (transaction : option Transaction) (resultSetNames : option (list string))
  (st st' : State) (currentPool : ConnectionPool) :
  getPool drv st = (Returned currentPool, st') →
  is_nullish parameters = true →
  dbRequest drv routine parameters expectedReturn transaction resultSetNames st =
  (Raised (TypeError "Cannot convert undefined or null to object"),
   with_line
     (database_error_line routine (JStr "Cannot convert undefined or null to object")
        parameters) st')
  ∧ ∀ drv',
      getPool drv' st = getPool drv st →
      dbRequest drv' routine parameters expectedReturn transaction resultSetNames st =
      dbRequest drv routine parameters expectedReturn transaction resultSetNames st.
Proof.
  intros Hpool Hnullish.
  assert (∀ d, getPool d st = (Returned currentPool, st') →
               dbRequest d routine parameters expectedReturn transaction resultSetNames st =
               (Raised (TypeError "Cannot convert undefined or null to object"),
                with_line
                  (database_error_line routine
                     (JStr "Cannot convert undefined or null to object") parameters) st'))
    as Hany.
  { intros d Hd. rewrite dbRequest_steps, Hd. simpl.
    unfold run_request, bind_inputs. rewrite Hnullish. reflexivity. }
  split; [exact (Hany drv Hpool)|].
  intros drv' Hsame. rewrite Hpool in Hsame.
  rewrite (Hany drv' Hsame), (Hany drv Hpool). reflexivity.
Qed.

Lemma dbRequest_nullish_parameters_witness :
  dbRequest (stubDriver (Returned twoSets)) "[dbo].[spTaskList]" JUndefined
    ExpectedReturn.None None None initial =
  (Raised (TypeError "Cannot convert undefined or null to object"),
   with_line
     (database_error_line "[dbo].[spTaskList]"
        (JStr "Cannot convert undefined or null to object") JUndefined)
     {| pool := Some (PoolHandle 0); connects := 1; console := []; scopes := ∅ |})
  ∧ ∀ drv',
      getPool drv' initial = getPool (stubDriver (Returned twoSets)) initial →
      dbRequest drv' "[dbo].[spTaskList]" JUndefined ExpectedReturn.None None None initial =
      dbRequest (stubDriver (Returned twoSets)) "[dbo].[spTaskList]" JUndefined
        ExpectedReturn.None None None initial.
Proof.
  apply (dbRequest_nullish_parameters (stubDriver (Returned twoSets)) _ _ _ _ _ initial _
           (PoolHandle 0)); reflexivity.
Defined.

(** X4.  With the expected shape Single, a routine that returns no
    result set at all makes [dbRequest] fail: the first result set is
    [undefined], reading its element 0 throws, and the TypeError is
    reported on the console and raised. *)
Theorem dbRequest_single_no_result_set (drv : Driver) (routine : string)
  (parameters : JsValue) (transaction : option Transaction)
  (resultSetNames : option (list string)) (st st' : State) (result : IResult) :
  executes drv routine parameters transaction st (Returned result) st' →
  recordsets result = [] →
  dbRequest drv routine parameters ExpectedReturn.Single transaction resultSetNames st =
  (Raised (TypeError "Cannot read properties of undefined (reading '0')"),
   with_line
     (database_error_line routine
        (JStr "Cannot read properties of undefined (reading '0')") parameters) st').
Proof.
  intros Hexec Hsets. rewrite (dbRequest_executes _ _ _ _ _ _ _ _ _ Hexec).
  unfold mbind, Outcome_bind, shape, recordset, recordsets_value. rewrite Hsets.
  reflexivity.
Qed.

Lemma dbRequest_single_no_result_set_witness :
  dbRequest (stubDriver (Returned noSets)) "[dbo].[spTaskDelete]"
    (JObj {[ "idTask" := JNum 7 ]}) ExpectedReturn.Single None None initial =
  (Raised (TypeError "Cannot read properties of undefined (reading '0')"),
   with_line
     (database_error_line "[dbo].[spTaskDelete]"
        (JStr "Cannot read properties of undefined (reading '0')")
        (JObj {[ "idTask" := JNum 7 ]}))
     {| pool := Some (PoolHandle 0); connects := 1; console := []; scopes := ∅ |}).
Proof.
  apply dbRequest_single_no_result_set with (result := noSets); [|reflexivity].
  exists (PoolHandle 0). split; [reflexivity|]. split; reflexivity.
Defined.

(** X5.  Whatever the call and the driver, [dbRequest] writes at most
    one console line, and with a pool already in place it makes no
    connection attempt and keeps that pool. *)
Theorem dbRequest_frame (drv : Driver) (routine : string) (parameters : JsValue)
  (expectedReturn : ExpectedReturn.t) (transaction : option Transaction)
  (resultSetNames : option (list string)) (st : State) :
  let st' :=
    (dbRequest drv routine parameters expectedReturn transaction resultSetNames st).2 in
  (console st' = console st ∨ ∃ line, console st' = console st ++ [line])
  ∧ (∀ p, pool st = Some p → pool st' = Some p ∧ connects st' = connects st).
Proof.
  simpl. rewrite dbRequest_steps.
  destruct (getPool_frame drv st) as (_ & Hconsole & Hcached & _).
  set (o := (getPool drv st).1 ≫= _).
  assert (∀ p, pool st = Some p →
               pool (getPool drv st).2 = Some p
               ∧ connects (getPool drv st).2 = connects st) as Hkeep.
  { intros p Hp. rewrite (Hcached p Hp). simpl. split; [exact Hp|reflexivity]. }
  destruct o as [v|error]; simpl.
  - split; [left; exact Hconsole|exact Hkeep].
  - destruct (get error "message") as [error_message|e]; simpl.
    + split; [|exact Hkeep].
      right. eexists. rewrite Hconsole. reflexivity.
    + split; [left; exact Hconsole|exact Hkeep].
Qed.

Lemma dbRequest_frame_witness :
  pool (dbRequest (stubDriver (Raised requestError)) "[dbo].[spTaskGet]" (JObj ∅)
          ExpectedReturn.Single None None
          {| pool := Some (PoolHandle 3); connects := 2; console := [];
             scopes := {[ 0%nat := Active ]} |}).2 = Some (PoolHandle 3)
  ∧ connects (dbRequest (stubDriver (Raised requestError)) "[dbo].[spTaskGet]" (JObj ∅)
                ExpectedReturn.Single None None
                {| pool := Some (PoolHandle 3); connects := 2; console := [];
                   scopes := {[ 0%nat := Active ]} |}).2 = 2%nat.
Proof.
  apply (dbRequest_frame (stubDriver (Raised requestError)) "[dbo].[spTaskGet]" (JObj ∅)
           ExpectedReturn.Single None None
           {| pool := Some (PoolHandle 3); connects := 2; console := [];
              scopes := {[ 0%nat := Active ]} |}).
  reflexivity.
Defined.

(** X6.  A call of [dbRequest] that returns has written nothing to the
    console and leaves a pool in place.  A call that fails has written
    exactly one line, except when what was thrown inside is [null] or
    [undefined]: then the [catch] block itself fails on reading
    [error.message], nothing is written, and that TypeError is what the
    caller gets. *)
Theorem dbRequest_logs_on_failure_only (drv : Driver) (routine : string)
  (parameters : JsValue) (expectedReturn : ExpectedReturn.t)
  (transaction : option Transaction) (resultSetNames : option (list string))
  (st st' : State) :
  (∀ v,
     dbRequest drv routine parameters expectedReturn transaction resultSetNames st =
     (Returned v, st') →
     console st' = console st ∧ is_Some (pool st'))
  ∧ (∀ e,
       dbRequest drv routine parameters expectedReturn transaction resultSetNames st =
       (Raised e, st') →
       (∃ error_message,
          get e "message" = Returned error_message
          ∧ console st' =
            console st ++ [database_error_line routine error_message parameters])
       ∨ (console st' = console st
          ∧ ∃ thrown, is_nullish thrown = true ∧ e = cannot_read thrown "message")).
Proof.
  rewrite dbRequest_steps.
  destruct (getPool_frame drv st) as (_ & Hconsole & _ & Hset).
  assert (∀ error e1, get error "message" = Raised e1 →
                      is_nullish error = true ∧ e1 = cannot_read error "message") as Hthrown.
  { intros error e1 Hmessage.
    destruct error; simpl in Hmessage; try discriminate Hmessage;
      injection Hmessage as <-; split; reflexivity. }
  set (o := (getPool drv st).1 ≫= _).
  destruct o as [v0|error] eqn:Ho; simpl.
  - split; [|intros e [=]].
    intros v [= _ <-]. split; [exact Hconsole|].
    destruct ((getPool drv st).1) as [p|e0] eqn:Hpool; [|discriminate Ho].
    rewrite (Hset p eq_refl). eexists. reflexivity.
  - split; [destruct (get error "message"); intros v [=]|].
    destruct (get error "message") as [error_message|e1] eqn:Hmessage.
    + intros e [= <- <-]. left. exists error_message. split; [exact Hmessage|].
      simpl. rewrite Hconsole. reflexivity.
    + intros e [= <- <-]. right. split; [exact Hconsole|].
      exists error. exact (Hthrown _ _ Hmessage).
Qed.

Lemma dbRequest_logs_on_failure_only_witness :
  (console {| pool := Some (PoolHandle 0); connects := 1; console := []; scopes := ∅ |} =
   console initial
   ∧ is_Some (pool {| pool := Some (PoolHandle 0); connects := 1; console := [];
                      scopes := ∅ |}))
  ∧ ((∃ error_message,
        get requestError "message" = Returned error_message
        ∧ console
            (with_line
               (database_error_line "[dbo].[spTaskGet]"
                  (JStr "Could not find stored procedure") (JObj ∅))
               {| pool := Some (PoolHandle 0); connects := 1; console := [];
                  scopes := ∅ |}) =
          console initial ++
          [database_error_line "[dbo].[spTaskGet]" error_message (JObj ∅)])
     ∨ (console
          (with_line
             (database_error_line "[dbo].[spTaskGet]"
                (JStr "Could not find stored procedure") (JObj ∅))
             {| pool := Some (PoolHandle 0); connects := 1; console := [];
                scopes := ∅ |}) = console initial
        ∧ ∃ thrown,
            is_nullish thrown = true ∧ requestError = cannot_read thrown "message")).
Proof.
  split.
  - apply (dbRequest_logs_on_failure_only (stubDriver (Returned twoSets))
             "[dbo].[spTaskList]" (JObj ∅) ExpectedReturn.Multi None None initial _)
      with (v := JArr [JArr [row 1]; JArr [row 2]]).
    reflexivity.
  - apply (dbRequest_logs_on_failure_only (stubDriver (Raised requestError))
             "[dbo].[spTaskGet]" (JObj ∅) ExpectedReturn.Single None None initial _)
      with (e := requestError); reflexivity.
Defined.

Lemma namedResults_dom (names : list string) (result : IResult) :
  dom (namedResults names result) = list_to_set names ∖ {[ "__proto__" ]}.
Proof.
  induction names as [|x names IH] using rev_ind.
  - unfold namedResults. simpl. rewrite dom_empty_L. set_solver.
  - rewrite namedResults_snoc, list_to_set_app_L. unfold assign.
    destruct (decide (x = "__proto__")) as [->|Hne].
    + rewrite IH. set_solver.
    + rewrite dom_insert_L, IH. set_solver.
Qed.

Lemma size_list_to_set_le (names : list string) :
  (size (list_to_set names : gset string) ≤ length names)%nat.
Proof.
  induction names as [|x names IH].
  - change (size (∅ : gset string) ≤ 0)%nat. rewrite size_empty. lia.
  - change (size ({[x]} ∪ list_to_set names : gset string) ≤ S (length names))%nat.
    rewrite size_union_alt, size_singleton.
    pose proof (subseteq_size (list_to_set names ∖ {[x]}) (list_to_set names : gset string))
      as Hle.
    specialize (Hle (subseteq_difference_l _ _ _ (reflexivity _))). lia.
Qed.

(** X7.  With the expected shape Multi and a non-empty label list, the
    own keys of the object that [dbRequest] returns are exactly the
    labels other than [__proto__]: every such label is a key, also one
    without a result set, [__proto__] is never a key, and there are no
    more keys than labels. *)
Theorem dbRequest_multi_keys (drv : Driver) (routine : string) (parameters : JsValue)
  (transaction : option Transaction) (names : list string) (st st' : State)
  (result : IResult) :
  executes drv routine parameters transaction st (Returned result) st' →
  (0 < length names)%nat →
  ∃ named,
    dbRequest drv routine parameters ExpectedReturn.Multi transaction (Some names) st =
    (Returned (JObj named), st')
    ∧ dom named = list_to_set names ∖ {[ "__proto__" ]}
    ∧ (∀ name, is_Some (named !! name) ↔ name ∈ names ∧ name ≠ "__proto__")
    ∧ (size named ≤ length names)%nat.
Proof.
  intros Hexec Hlen. exists (namedResults names result). split; [|split; [|split]].
  - apply (dbRequest_shaped _ _ _ _ _ _ _ Hexec). unfold shape, names_given.
    rewrite bool_decide_true by exact Hlen. reflexivity.
  - apply namedResults_dom.
  - intros name. rewrite <- elem_of_dom, namedResults_dom.
    rewrite elem_of_difference, elem_of_list_to_set, elem_of_singleton. reflexivity.
  - rewrite <- size_dom, namedResults_dom.
    etransitivity; [|apply size_list_to_set_le].
    apply subseteq_size, subseteq_difference_l. reflexivity.
Qed.

Lemma dbRequest_multi_keys_witness :
  ∃ named,
    dbRequest (stubDriver (Returned twoSets)) "[dbo].[spTaskList]" (JObj ∅)
      ExpectedReturn.Multi None (Some ["__proto__"; "tags"; "tags"]) initial =
    (Returned (JObj named),
     {| pool := Some (PoolHandle 0); connects := 1; console := []; scopes := ∅ |})
    ∧ dom named = list_to_set ["__proto__"; "tags"; "tags"] ∖ {[ "__proto__" ]}
    ∧ (∀ name,
         is_Some (named !! name) ↔
         name ∈ ["__proto__"; "tags"; "tags"] ∧ name ≠ "__proto__")
    ∧ (size named ≤ length ["__proto__"; "tags"; "tags"])%nat.
Proof.
  apply dbRequest_multi_keys with (result := twoSets).
  - exists (PoolHandle 0). split; [reflexivity|]. split; reflexivity.
  - simpl. lia.
Defined.

(** X8.  When the routine is executed, the expected shape None gives
    [null] whatever the routine returned, and a shape outside the three
    listed ones gives the whole first result set, or [undefined] when
    there is no result set (nothing is raised then, unlike for Single). *)
Theorem dbRequest_none_and_default (drv : Driver) (routine : string)
  (parameters : JsValue) (transaction : option Transaction)
  (resultSetNames : option (list string)) (st st' : State) (result : IResult) :
  executes drv routine parameters transaction st (Returned result) st' →
  dbRequest drv routine parameters ExpectedReturn.None transaction resultSetNames st =
  (Returned JNull, st')
  ∧ dbRequest drv routine parameters ExpectedReturn.Unlisted transaction resultSetNames st =
    (Returned
       match recordsets result with
       | [] => JUndefined
       | first :: _ => JArr first
       end, st').
Proof.
  intros Hexec. split.
  - apply (dbRequest_shaped _ _ _ _ _ _ _ Hexec). reflexivity.
  - apply (dbRequest_shaped _ _ _ _ _ _ _ Hexec).
    unfold shape, recordset, recordsets_value.
    destruct (recordsets result); reflexivity.
Qed.

Lemma dbRequest_none_and_default_witness :
  dbRequest (stubDriver (Returned twoSets)) "[dbo].[spTaskSave]" (JObj ∅)
    ExpectedReturn.None None None initial =
  (Returned JNull,
   {| pool := Some (PoolHandle 0); connects := 1; console := []; scopes := ∅ |})
  ∧ dbRequest (stubDriver (Returned twoSets)) "[dbo].[spTaskSave]" (JObj ∅)
      ExpectedReturn.Unlisted None None initial =
    (Returned
       match recordsets twoSets with
       | [] => JUndefined
       | first :: _ => JArr first
       end,
     {| pool := Some (PoolHandle 0); connects := 1; console := []; scopes := ∅ |}).
Proof.
  apply dbRequest_none_and_default.
  exists (PoolHandle 0). split; [reflexivity|]. split; reflexivity.
Defined.

(** X9.  With a transaction supplied the request runs on the
    transaction and never on the pool: two drivers that connect alike and
    answer alike on that transaction give the same [dbRequest], however
    they answer on the pool. *)
Theorem dbRequest_runs_on_transaction (drv1 drv2 : Driver) (routine : string)
  (parameters : JsValue) (expectedReturn : ExpectedReturn.t) (tx : Transaction)
  (resultSetNames : option (list string)) (st : State) :
  (∀ n, sql_connect drv1 n = sql_connect drv2 n) →
  (∀ inputs,
     request_execute drv1 (OnTransaction tx) inputs routine =
     request_execute drv2 (OnTransaction tx) inputs routine) →
  dbRequest drv1 routine parameters expectedReturn (Some tx) resultSetNames st =
  dbRequest drv2 routine parameters expectedReturn (Some tx) resultSetNames st.
Proof.
  intros Hconnect Hexecute.
  assert (getPool drv1 st = getPool drv2 st) as Hpool.
  { unfold getPool, read_pool, connect, write_pool. run_action.
    destruct (pool st); [reflexivity|]. rewrite Hconnect. reflexivity. }
  rewrite !dbRequest_steps, Hpool.
  destruct (getPool drv2 st) as [[p|e] st1]; simpl; [|reflexivity].
  unfold run_request, new_Request.
  destruct (bind_inputs parameters) as [inputs|e]; simpl; [|reflexivity].
  rewrite Hexecute. reflexivity.
Qed.

Lemma dbRequest_runs_on_transaction_witness :
  dbRequest (scopedDriver (Returned twoSets) (Raised requestError)) "[dbo].[spTaskList]"
    (JObj ∅) ExpectedReturn.Multi (Some (TransactionHandle 0)) None initial =
  dbRequest (scopedDriver (Returned twoSets) (Returned noSets)) "[dbo].[spTaskList]"
    (JObj ∅) ExpectedReturn.Multi (Some (TransactionHandle 0)) None initial.
Proof.
  apply dbRequest_runs_on_transaction; reflexivity.
Defined.

(** X10.  [beginTransaction] needs the pool: when the connection attempt
    fails it fails with that failure and opens no transaction scope; it
    does not write to the console. *)
Theorem beginTransaction_connection_failure (drv : Driver) (st : State) (e : JsValue) :
  pool st = None →
  sql_connect drv (connects st) = Raised e →
  ∃ st',
    beginTransaction drv st = (Raised e, st')
    ∧ scopes st' = scopes st
    ∧ console st' = console st
    ∧ pool st' = None.
Proof.
  intros Hpool Hconnect. eexists. split.
  - unfold beginTransaction. unfold mbind at 1, Action_bind.
    rewrite (getPool_failed _ _ _ Hpool Hconnect). reflexivity.
  - split; [reflexivity|]. split; reflexivity.
Qed.

Lemma beginTransaction_connection_failure_witness :
  ∃ st',
    beginTransaction (flakyDriver connectionError (Returned noSets)) initial =
    (Raised connectionError, st')
    ∧ scopes st' = scopes initial
    ∧ console st' = console initial
    ∧ pool st' = None.
Proof.
  apply beginTransaction_connection_failure; reflexivity.
Defined.

(* ===================================================================== *)
(** * Further properties of the error middleware and the envelopes *)
(* ===================================================================== *)

(** What [errorMiddleware] answers and logs for a failure that is not
    [null] or [undefined]. *)
Lemma errorMiddleware_run err req NODE_ENV now :
  is_nullish err = false →
  ∃ err_statusCode err_code err_message err_stack,
    get err "statusCode" = Returned err_statusCode
    ∧ get err "code" = Returned err_code
    ∧ get err "message" = Returned err_message
    ∧ get err "stack" = Returned err_stack
    ∧ errorMiddleware err req NODE_ENV now =
      Returned
        {| res_status := js_or err_statusCode (JNum 500);
           res_json :=
             JObj {[ "success" := JBool false;
                     "error" :=
                       JObj {[ "code" := js_or err_code (JStr "INTERNAL_SERVER_ERROR");
                               "message" :=
                                 js_or err_message (JStr "An unexpected error occurred");
                               "details" :=
                                 if bool_decide (NODE_ENV = Some "development")
                                 then err_stack else JUndefined ]};
                     "timestamp" := JStr now ]};
           logged :=
             ("Error:",
              JObj {[ "code" := js_or err_code (JStr "INTERNAL_SERVER_ERROR");
                      "message" := js_or err_message (JStr "An unexpected error occurred");
                      "path" := JStr (req_path req);
                      "method" := JStr (req_method req);
                      "stack" := err_stack ]}) |}.
Proof.
  intros Hnn.
  destruct (get_not_nullish err "statusCode" Hnn) as [err_statusCode Hstatus].
  destruct (get_not_nullish err "code" Hnn) as [err_code Hcode].
  destruct (get_not_nullish err "message" Hnn) as [err_message Hmessage].
  destruct (get_not_nullish err "stack" Hnn) as [err_stack Hstack].
  exists err_statusCode, err_code, err_message, err_stack.
  repeat (split; [assumption|]).
  unfold errorMiddleware. rewrite Hstatus, Hcode, Hmessage, Hstack. run_outcome.
  destruct (bool_decide (NODE_ENV = Some "development")); rewrite ?Hstack; simpl;
    rewrite lookup_insert_eq, lookup_insert_ne, lookup_insert_eq by discriminate;
    reflexivity.
Qed.

Lemma js_or_truthy (v fallback : JsValue) :
  truthy fallback = true → truthy (js_or v fallback) = true.
Proof. intros H. unfold js_or. destruct (truthy v) eqn:Hv; [exact Hv|exact H]. Qed.

(** X11.  The status that [errorMiddleware] sets is the failure's own
    [statusCode] when that is truthy and 500 otherwise; it is never a
    falsy value such as 0 or [undefined]. *)
Theorem errorMiddleware_status (err : JsValue) (req : Request) (NODE_ENV : option string)
  (now : string) :
  is_nullish err = false →
  ∃ err_statusCode res,
    get err "statusCode" = Returned err_statusCode
    ∧ errorMiddleware err req NODE_ENV now = Returned res
    ∧ res_status res = (if truthy err_statusCode then err_statusCode else JNum 500)
    ∧ truthy (res_status res) = true.
Proof.
  intros Hnn.
  destruct (errorMiddleware_run err req NODE_ENV now Hnn)
    as (err_statusCode & err_code & err_message & err_stack & Hs & _ & _ & _ & Hrun).
  exists err_statusCode. eexists. split; [exact Hs|]. split; [exact Hrun|].
  split; [reflexivity|]. simpl. apply js_or_truthy. reflexivity.
Qed.

Lemma errorMiddleware_status_witness :
  ∃ err_statusCode res,
    get requestError "statusCode" = Returned err_statusCode
    ∧ errorMiddleware requestError emptyRequest None "2024-01-01T00:00:00.000Z" =
      Returned res
    ∧ res_status res = (if truthy err_statusCode then err_statusCode else JNum 500)
    ∧ truthy (res_status res) = true.
Proof.
  apply errorMiddleware_status. reflexivity.
Defined.

(** X12.  The failure's stack reaches the response only when NODE_ENV is
    exactly 'development': in every other environment, an unset one
    included, the details of the response are [undefined].  The console
    line carries the stack, the request path and the method in every
    environment. *)
Theorem errorMiddleware_stack (err : JsValue) (req : Request) (NODE_ENV : option string)
  (now : string) :
  is_nullish err = false →
  ∃ err_stack res error context,
    get err "stack" = Returned err_stack
    ∧ errorMiddleware err req NODE_ENV now = Returned res
    ∧ get (res_json res) "error" = Returned (JObj error)
    ∧ (NODE_ENV = Some "development" → error !! "details" = Some err_stack)
    ∧ (NODE_ENV ≠ Some "development" → error !! "details" = Some JUndefined)
    ∧ logged res = ("Error:", JObj context)
    ∧ context !! "stack" = Some err_stack
    ∧ context !! "path" = Some (JStr (req_path req))
    ∧ context !! "method" = Some (JStr (req_method req)).
Proof.
  intros Hnn.
  destruct (errorMiddleware_run err req NODE_ENV now Hnn)
    as (err_statusCode & err_code & err_message & err_stack & _ & _ & _ & Hstack & Hrun).
  exists err_stack. eexists _, _, _. split; [exact Hstack|]. split; [exact Hrun|].
  cbn [res_json logged]. split; [reflexivity|].
  split; [|split; [|split; [reflexivity|]]].
  - intros Hdev. rewrite bool_decide_true by exact Hdev. reflexivity.
  - intros Hdev. rewrite bool_decide_false by exact Hdev. reflexivity.
  - repeat split; reflexivity.
Qed.

Lemma errorMiddleware_stack_witness :
  (∃ res error,
     errorMiddleware plainError collisionRequest (Some "development")
       "2024-01-01T00:00:00.000Z" = Returned res
     ∧ get (res_json res) "error" = Returned (JObj error)
     ∧ error !! "details" = Some (JStr "Error: boom at refine (schema.ts:12:11)"))
  ∧ ∃ res error context,
      errorMiddleware plainError collisionRequest (Some "production")
        "2024-01-01T00:00:00.000Z" = Returned res
      ∧ get (res_json res) "error" = Returned (JObj error)
      ∧ error !! "details" = Some JUndefined
      ∧ logged res = ("Error:", JObj context)
      ∧ context !! "stack" = Some (JStr "Error: boom at refine (schema.ts:12:11)")
      ∧ context !! "path" = Some (JStr "/api/v1/internal/task/1")
      ∧ context !! "method" = Some (JStr "PUT").
Proof.
  split.
  - destruct (errorMiddleware_stack plainError collisionRequest (Some "development")
                "2024-01-01T00:00:00.000Z" eq_refl)
      as (err_stack & res & error & context & Hstack & Hrun & Herror & Hdev & _).
    injection Hstack as <-.
    exists res, error. split; [exact Hrun|]. split; [exact Herror|].
    apply Hdev. reflexivity.
  - destruct (errorMiddleware_stack plainError collisionRequest (Some "production")
                "2024-01-01T00:00:00.000Z" eq_refl)
      as (err_stack & res & error & context & Hstack & Hrun & Herror & _ & Hother
          & Hlogged & Hcontext & Hpath & Hmethod).
    injection Hstack as <-.
    exists res, error, context. split; [exact Hrun|]. split; [exact Herror|].
    split; [apply Hother; discriminate|].
    split; [exact Hlogged|]. split; [exact Hcontext|]. split; [exact Hpath|exact Hmethod].
Defined.

(** X13.  The failure object that [validate] returns for a rejected
    input, handed to [errorMiddleware], is answered with status 400, code
    VALIDATION_ERROR and message 'Validation failed'; the field
    violations it carries as details are not passed on: the details of
    the response are [undefined] in every environment, because the
    middleware only ever reports a stack. *)
Theorem validation_failure_through_middleware (this : CrudController.t) (req : Request)
  (schema : ZodSchema) (operation : string) (e : JsValue) (NODE_ENV : option string)
  (now : string) :
  parseAsync schema (JObj (CrudController.merge req)) = Raised e →
  is_nullish e = false →
  ∃ failure res,
    CrudController.validate this req schema operation = Returned (None, Some failure)
    ∧ errorMiddleware (failure_object failure) req NODE_ENV now = Returned res
    ∧ res_status res = JNum 400
    ∧ res_json res =
      JObj {[ "success" := JBool false;
              "error" := JObj {[ "code" := JStr "VALIDATION_ERROR";
                                 "message" := JStr "Validation failed";
                                 "details" := JUndefined ]};
              "timestamp" := JStr now ]}.
Proof.
  intros Hparse Hnn.
  destruct (get_not_nullish e "errors" Hnn) as [errors Herrors].
  exists {| statusCode := 400; code := "VALIDATION_ERROR"; message := "Validation failed";
            details := errors |}.
  eexists. split.
  - rewrite (validate_rejected _ _ _ _ _ Hparse), Herrors. reflexivity.
  - unfold errorMiddleware, failure_object. cbn [statusCode code message details].
    destruct (bool_decide (NODE_ENV = Some "development")); run_outcome;
      (split; [reflexivity|]); split; reflexivity.
Qed.

Lemma validation_failure_through_middleware_witness :
  ∃ failure res,
    CrudController.validate controller emptyRequest idSchema "CREATE" =
    Returned (None, Some failure)
    ∧ errorMiddleware (failure_object failure) emptyRequest (Some "development")
        "2024-01-01T00:00:00.000Z" = Returned res
    ∧ res_status res = JNum 400
    ∧ res_json res =
      JObj {[ "success" := JBool false;
              "error" := JObj {[ "code" := JStr "VALIDATION_ERROR";
                                 "message" := JStr "Validation failed";
                                 "details" := JUndefined ]};
              "timestamp" := JStr "2024-01-01T00:00:00.000Z" ]}.
Proof.
  apply (validation_failure_through_middleware controller emptyRequest idSchema "CREATE"
           (ZodError [issue "invalid_type" "id" "Expected number, received nan"]));
    reflexivity.
Defined.

(** X14.  The two helpers never build the same envelope: whatever the
    data, the message, the details and the clock, [successResponse] and
    [errorResponse] differ in [success], the first has no [error] and the
    second no [data]. *)
Theorem success_and_error_envelopes_differ (data details : JsValue) (message : string)
  (now now' : string) :
  successResponse data now ≠ errorResponse message details now'
  ∧ get (successResponse data now) "success" = Returned (JBool true)
  ∧ get (successResponse data now) "data" = Returned data
  ∧ get (successResponse data now) "error" = Returned JUndefined
  ∧ get (errorResponse message details now') "success" = Returned (JBool false)
  ∧ get (errorResponse message details now') "data" = Returned JUndefined.
Proof.
  split; [|repeat split; reflexivity].
  intros Heq.
  assert (get (successResponse data now) "success" =
          get (errorResponse message details now') "success") as Hsuccess
    by (rewrite Heq; reflexivity).
  discriminate Hsuccess.
Qed.

(* ===================================================================== *)
(** * Further properties of the validation pipeline *)
(* ===================================================================== *)

(** X15.  The four entry points are one function: on the same request
    and schema they give the same outcome, and neither the operation
    label nor the security configuration of the controller has any
    influence on it. *)
Theorem entry_points_agree (entry entry' : CrudController.EntryPoint)
  (this this' : CrudController.t) (operation : string) (req : Request)
  (schema : ZodSchema) :
  CrudController.call entry this req schema = CrudController.call entry' this' req schema
  ∧ CrudController.call entry this req schema =
    CrudController.validate this' req schema operation.
Proof.
  destruct (call_validate entry this req schema) as [op ->].
  destruct (call_validate entry' this' req schema) as [op' ->].
  split; reflexivity.
Qed.

Lemma own_props_primitive (v : JsValue) :
  match v with
  | JObj _ | JArr _ | JStr _ => False
  | _ => True
  end →
  own_props v = ∅.
Proof. destruct v; simpl; intros H; try reflexivity; contradiction. Qed.

(** X16.  A body that is [undefined], [null], a boolean or a number adds
    nothing to the merged input: the request is validated exactly like
    the same request with the empty object as its body. *)
Theorem validate_primitive_body (this : CrudController.t) (req : Request)
  (schema : ZodSchema) (operation : string) :
  match req_body req with
  | JObj _ | JArr _ | JStr _ => False
  | _ => True
  end →
  CrudController.merge req = req_query req ∪ req_params req
  ∧ CrudController.validate this req schema operation =
    CrudController.validate this
      {| req_params := req_params req; req_query := req_query req; req_body := JObj ∅;
         req_path := req_path req; req_method := req_method req |}
      schema operation.
Proof.
  intros Hbody. pose proof (own_props_primitive _ Hbody) as Hnone.
  assert (CrudController.merge req = req_query req ∪ req_params req) as Hmerge.
  { unfold CrudController.merge, spread. rewrite Hnone.
    rewrite (left_id_L ∅ (∪)), (right_id_L ∅ (∪)). reflexivity. }
  split; [exact Hmerge|].
  unfold CrudController.validate. rewrite Hmerge.
  unfold CrudController.merge, spread. simpl.
  rewrite (left_id_L ∅ (∪)), (right_id_L ∅ (∪)). reflexivity.
Qed.

Lemma validate_primitive_body_witness :
  CrudController.merge
    {| req_params := {[ "id" := JStr "5" ]}; req_query := ∅; req_body := JUndefined;
       req_path := "/api/v1/internal/task/5"; req_method := "GET" |} =
  (∅ : gmap string JsValue) ∪ {[ "id" := JStr "5" ]}
  ∧ CrudController.validate controller
      {| req_params := {[ "id" := JStr "5" ]}; req_query := ∅; req_body := JUndefined;
         req_path := "/api/v1/internal/task/5"; req_method := "GET" |} idSchema "READ" =
    CrudController.validate controller
      {| req_params := {[ "id" := JStr "5" ]}; req_query := ∅; req_body := JObj ∅;
         req_path := "/api/v1/internal/task/5"; req_method := "GET" |} idSchema "READ".
Proof.
  exact (validate_primitive_body controller
           {| req_params := {[ "id" := JStr "5" ]}; req_query := ∅; req_body := JUndefined;
              req_path := "/api/v1/internal/task/5"; req_method := "GET" |}
           idSchema "READ" I).
Defined.

(** X17.  Merging loses no key and invents none: the keys of the merged
    input are exactly the keys of the path parameters, of the query and
    of the body together; a key that only the path parameters have
    reaches the schema with the path's value. *)
Theorem merge_keys (req : Request) :
  dom (CrudController.merge req) =
  dom (req_params req) ∪ dom (req_query req) ∪ dom (own_props (req_body req))
  ∧ ∀ k v,
      req_params req !! k = Some v →
      req_query req !! k = None →
      own_props (req_body req) !! k = None →
      CrudController.merge req !! k = Some v.
Proof.
  split.
  - unfold CrudController.merge, spread. rewrite !dom_union_L, dom_empty_L.
    rewrite (right_id_L ∅ (∪)).
    rewrite (comm_L (∪) (dom (own_props (req_body req)))).
    rewrite (comm_L (∪) (dom (req_query req))). reflexivity.
  - intros k v Hpath Hquery Hbody. rewrite merge_lookup, Hbody, Hquery. exact Hpath.
Qed.

Lemma merge_keys_witness :
  CrudController.merge
    {| req_params := {[ "id" := JStr "5" ]}; req_query := {[ "page" := JStr "2" ]};
       req_body := JObj {[ "title" := JStr "x" ]};
       req_path := "/api/v1/internal/task/5"; req_method := "PUT" |} !! "id" =
  Some (JStr "5").
Proof.
  apply (merge_keys
           {| req_params := {[ "id" := JStr "5" ]}; req_query := {[ "page" := JStr "2" ]};
              req_body := JObj {[ "title" := JStr "x" ]};
              req_path := "/api/v1/internal/task/5"; req_method := "PUT" |});
    reflexivity.
Defined.

Lemma indexed_snoc (xs : list JsValue) (x : JsValue) :
  indexed (xs ++ [x]) = indexed xs ∪ {[ pretty (length xs) := x ]}.
Proof.
  unfold indexed. rewrite imap_app, list_to_map_app. simpl.
  rewrite Nat.add_0_r, insert_empty. reflexivity.
Qed.

(** The element at index [i] of an array is its property named by the
    decimal numeral of [i]. *)
Lemma indexed_lookup (xs : list JsValue) (i : nat) : indexed xs !! pretty i = xs !! i.
Proof.
  induction xs as [|x xs IH] using rev_ind.
  - unfold indexed. simpl. rewrite lookup_empty, lookup_nil. reflexivity.
  - rewrite indexed_snoc, lookup_union, IH.
    destruct (decide (i = length xs)) as [->|Hne].
    + rewrite lookup_singleton_eq, lookup_ge_None_2 by lia.
      rewrite lookup_app_r, Nat.sub_diag by lia. reflexivity.
    + rewrite lookup_singleton_ne by (intros Heq; apply Hne; symmetry;
                                        exact (inj pretty _ _ Heq)).
      destruct (decide (i < length xs)%nat) as [Hlt|Hge].
      * rewrite lookup_app_l by exact Hlt. destruct (xs !! i); reflexivity.
      * rewrite !lookup_ge_None_2; [reflexivity| |lia].
        rewrite length_app. simpl. lia.
Qed.

(** X18.  A body that is an array is spread by index: its element at
    position i enters the merged input under the key that is the decimal
    numeral of i and overrides a query or path parameter of that name. *)
Theorem merge_array_body (req : Request) (xs : list JsValue) (i : nat) (x : JsValue) :
  req_body req = JArr xs →
  xs !! i = Some x →
  CrudController.merge req !! pretty i = Some x.
Proof.
  intros Hbody Hi. rewrite merge_lookup, Hbody. simpl.
  rewrite indexed_lookup, Hi. reflexivity.
Qed.

Lemma merge_array_body_witness :
  CrudController.merge
    {| req_params := ∅; req_query := {[ "0" := JStr "from the query" ]};
       req_body := JArr [JStr "from the body"; JNum 2];
       req_path := "/api/v1/internal/task"; req_method := "POST" |} !! pretty 0%nat =
  Some (JStr "from the body").
Proof.
  apply (merge_array_body _ [JStr "from the body"; JNum 2]); reflexivity.
Defined.

(* ===================================================================== *)
(** * Properties of the string schemas *)
(* ===================================================================== *)

Lemma settle_accepts (issues : list JsValue) (v : JsValue) :
  z.settle issues v = Returned v ↔ issues = [].
Proof.
  destruct issues; simpl; split; intros H; try reflexivity; discriminate H.
Qed.

Lemma settle_total (issues : list JsValue) (v : JsValue) :
  z.settle issues v = Returned v
  ∨ (issues ≠ [] ∧ z.settle issues v = Raised (ZodError issues)).
Proof. destruct issues; [left|right; split; [discriminate|]]; reflexivity. Qed.

(** A string schema with a lower and an upper bound. *)
Lemma bounded_accepts (lo hi : nat) (v : JsValue) :
  accepts (z.max hi (z.min lo z.string)) v ↔
  ∃ s, v = JStr s ∧ (lo ≤ String.length s ≤ hi)%nat.
Proof.
  unfold accepts. simpl. rewrite settle_accepts. split.
  - destruct v as [| | | |s| |]; try discriminate. simpl.
    destruct (Nat.ltb_spec (String.length s) lo); [discriminate|].
    destruct (Nat.ltb_spec hi (String.length s)); [discriminate|].
    intros _. exists s. split; [reflexivity|lia].
  - intros (s & -> & Hlo & Hhi). simpl.
    destruct (Nat.ltb_spec (String.length s) lo); [lia|].
    destruct (Nat.ltb_spec hi (String.length s)); [lia|]. reflexivity.
Qed.

(** A nullable string schema with an upper bound alone. *)
Lemma nullable_max_accepts (hi : nat) (v : JsValue) :
  accepts (z.nullable (z.max hi z.string)) v ↔
  v = JNull ∨ ∃ s, v = JStr s ∧ (String.length s ≤ hi)%nat.
Proof.
  unfold accepts. split.
  - destruct v as [| | | |s| |]; simpl; try discriminate.
    + intros _. left. reflexivity.
    + destruct (Nat.ltb_spec hi (String.length s)); [discriminate|].
      intros _. right. exists s. split; [reflexivity|assumption].
  - intros [->|(s & -> & Hhi)]; [reflexivity|]. simpl.
    destruct (Nat.ltb_spec hi (String.length s)); [lia|]. reflexivity.
Qed.

Lemma string_schema_total (s : z.ZodString) (v : JsValue) :
  accepts s v ∨ ∃ issues, issues ≠ [] ∧ parseAsync s v = Raised (ZodError issues).
Proof.
  unfold accepts. simpl.
  destruct (settle_total (z.string_issues s v) v) as [H|[Hne H]]; [left; exact H|].
  right. eexists. split; [exact Hne|exact H].
Qed.

(** X19.  [zString] accepts exactly the strings of 1 to 255 code units
    and [zName] exactly those of 1 to 100, and each returns the string
    it accepts unchanged; everything else, the empty string and every
    value that is not a string included, is rejected with a ZodError
    that carries at least one issue. *)
Theorem zString_zName_accept (v : JsValue) :
  (accepts zString v ↔ ∃ s, v = JStr s ∧ (1 ≤ String.length s ≤ 255)%nat)
  ∧ (accepts zName v ↔ ∃ s, v = JStr s ∧ (1 ≤ String.length s ≤ 100)%nat)
  ∧ (accepts zString v
     ∨ ∃ issues, issues ≠ [] ∧ parseAsync zString v = Raised (ZodError issues))
  ∧ (accepts zName v
     ∨ ∃ issues, issues ≠ [] ∧ parseAsync zName v = Raised (ZodError issues)).
Proof.
  split; [apply bounded_accepts|]. split; [apply bounded_accepts|].
  split; apply string_schema_total.
Qed.

Lemma zString_zName_accept_witness :
  accepts zString (JStr "Buy milk") ∧ ¬ accepts zName (JStr "").
Proof.
  destruct (zString_zName_accept (JStr "Buy milk")) as ([_ Hyes] & _).
  destruct (zString_zName_accept (JStr "")) as (_ & [Hno _] & _).
  split.
  - apply Hyes. exists "Buy milk". split; [reflexivity|]. simpl. lia.
  - intros Hacc. destruct (Hno Hacc) as (s & [= <-] & Hlen & _). simpl in Hlen. lia.
Defined.

(** X20.  The nullable string schemas accept [null], which they return
    as [null], and every string up to their bound, the empty string
    included: 255 code units for [zNullableString], 500 for
    [zNullableDescription], 20 for [zPhone]; they accept nothing else,
    in particular not [undefined]. *)
Theorem nullable_strings_accept (v : JsValue) :
  (accepts zNullableString v ↔
   v = JNull ∨ ∃ s, v = JStr s ∧ (String.length s ≤ 255)%nat)
  ∧ (accepts zNullableDescription v ↔
     v = JNull ∨ ∃ s, v = JStr s ∧ (String.length s ≤ 500)%nat)
  ∧ (accepts zPhone v ↔ v = JNull ∨ ∃ s, v = JStr s ∧ (String.length s ≤ 20)%nat)
  ∧ ¬ accepts zNullableString JUndefined
  ∧ ¬ accepts zNullableDescription JUndefined
  ∧ ¬ accepts zPhone JUndefined.
Proof.
  split; [apply nullable_max_accepts|]. split; [apply nullable_max_accepts|].
  split; [apply nullable_max_accepts|].
  repeat split; intros H; discriminate H.
Qed.

Lemma nullable_strings_accept_witness :
  accepts zPhone JNull ∧ accepts zNullableDescription (JStr "")
  ∧ ¬ accepts zPhone (JStr "+55 (11) 91234-5678 ext. 204").
Proof.
  destruct (nullable_strings_accept JNull) as (_ & _ & [_ Hnull] & _).
  destruct (nullable_strings_accept (JStr "")) as (_ & [_ Hempty] & _).
  destruct (nullable_strings_accept (JStr "+55 (11) 91234-5678 ext. 204"))
    as (_ & _ & [Hlong _] & _).
  split; [|split].
  - apply Hnull. left. reflexivity.
  - apply Hempty. right. exists "". split; [reflexivity|]. simpl. lia.
  - intros Hacc. destruct (Hlong Hacc) as [Hn|(s & [= <-] & Hlen)]; [discriminate Hn|].
    simpl in Hlen. lia.
Defined.

(** X21.  The string schemas are nested: what [zName] accepts [zString]
    accepts, what [zString] or [zPhone] accepts [zNullableString]
    accepts, and what [zNullableString] accepts [zNullableDescription]
    accepts.  The nesting is strict at the ends: [zString] refuses the
    empty string and [null], which the nullable schemas accept. *)
Theorem string_schemas_nested (v : JsValue) :
  (accepts zName v → accepts zString v)
  ∧ (accepts zString v → accepts zNullableString v)
  ∧ (accepts zPhone v → accepts zNullableString v)
  ∧ (accepts zNullableString v → accepts zNullableDescription v)
  ∧ ¬ accepts zString (JStr "")
  ∧ ¬ accepts zString JNull
  ∧ accepts zNullableString (JStr "")
  ∧ accepts zNullableString JNull.
Proof.
  split; [|split; [|split; [|split]]].
  - intros (s & -> & Hlo & Hhi)%bounded_accepts.
    apply bounded_accepts. exists s. split; [reflexivity|lia].
  - intros (s & -> & Hlo & Hhi)%bounded_accepts.
    apply nullable_max_accepts. right. exists s. split; [reflexivity|lia].
  - intros [->|(s & -> & Hhi)]%nullable_max_accepts; apply nullable_max_accepts.
    + left. reflexivity.
    + right. exists s. split; [reflexivity|lia].
  - intros [->|(s & -> & Hhi)]%nullable_max_accepts; apply nullable_max_accepts.
    + left. reflexivity.
    + right. exists s. split; [reflexivity|lia].
  - repeat split; try reflexivity; intros H; discriminate H.
Qed.

Lemma string_schemas_nested_witness :
  accepts zString (JStr "Inbox") ∧ accepts zNullableDescription (JStr "Inbox").
Proof.
  destruct (string_schemas_nested (JStr "Inbox")) as (Hname & Hstring & _ & Hnullable & _).
  assert (accepts zString (JStr "Inbox")) as H by (apply Hname; reflexivity).
  split; [exact H|]. apply Hnullable, Hstring, H.
Defined.

(* ===================================================================== *)
(** * The gateway inside a transaction *)
(* ===================================================================== *)

Lemma dbRequest_state drv routine parameters expectedReturn transaction resultSetNames st :
  (dbRequest drv routine parameters expectedReturn transaction resultSetNames st).2 =
  (getPool drv st).2
  ∨ ∃ line,
      (dbRequest drv routine parameters expectedReturn transaction resultSetNames st).2 =
      with_line line (getPool drv st).2.
Proof.
  rewrite dbRequest_steps.
  destruct (_ ≫= _) as [v|error]; [left; reflexivity|].
  destruct (get error "message"); [right; eexists|left]; reflexivity.
Qed.

(** X22.  A [beginTransaction] that succeeds leaves the pool connected
    and writes nothing to the console, so a [dbRequest] made afterwards,
    in that transaction or outside of it, makes no further connection
    attempt and keeps the same pool. *)
Theorem beginTransaction_then_dbRequest (drv : Driver) (st st' : State)
  (tx : Transaction) (routine : string) (parameters : JsValue)
  (expectedReturn : ExpectedReturn.t) (transaction : option Transaction)
  (resultSetNames : option (list string)) :
  beginTransaction drv st = (Returned tx, st') →
  ∃ p,
    pool st' = Some p
    ∧ console st' = console st
    ∧ pool (dbRequest drv routine parameters expectedReturn transaction resultSetNames
              st').2 = Some p
    ∧ connects (dbRequest drv routine parameters expectedReturn transaction
                  resultSetNames st').2 = connects st'.
Proof.
  unfold beginTransaction. unfold mbind at 1, Action_bind.
  destruct (getPool_frame drv st) as (_ & Hconsole & _ & Hset).
  destruct (getPool drv st) as [[p|e] st1] eqn:Hpool; [|discriminate].
  run_action. intros [= _ <-]. exists p.
  specialize (Hset p eq_refl). simpl in Hset, Hconsole.
  assert (pool (set_scope (fresh (dom (scopes st1))) Active st1) = Some p) as Hp
    by exact Hset.
  split; [exact Hp|]. split; [exact Hconsole|].
  destruct (getPool_frame drv (set_scope (fresh (dom (scopes st1))) Active st1))
    as (_ & _ & Hcached & _).
  destruct (dbRequest_state drv routine parameters expectedReturn transaction
              resultSetNames (set_scope (fresh (dom (scopes st1))) Active st1))
    as [->|[line ->]]; rewrite (Hcached p Hp); split; first [exact Hp|reflexivity].
Qed.

Lemma beginTransaction_then_dbRequest_witness :
  ∃ p,
    pool {| pool := Some (PoolHandle 0); connects := 1; console := [];
            scopes := {[ 0%nat := Active ]} |} = Some p
    ∧ console {| pool := Some (PoolHandle 0); connects := 1; console := [];
                 scopes := {[ 0%nat := Active ]} |} = console initial
    ∧ pool (dbRequest (stubDriver (Returned twoSets)) "[dbo].[spTaskList]" (JObj ∅)
              ExpectedReturn.Multi (Some (TransactionHandle 0)) None
              {| pool := Some (PoolHandle 0); connects := 1; console := [];
                 scopes := {[ 0%nat := Active ]} |}).2 = Some p
    ∧ connects (dbRequest (stubDriver (Returned twoSets)) "[dbo].[spTaskList]" (JObj ∅)
                  ExpectedReturn.Multi (Some (TransactionHandle 0)) None
                  {| pool := Some (PoolHandle 0); connects := 1; console := [];
                     scopes := {[ 0%nat := Active ]} |}).2 =
      connects {| pool := Some (PoolHandle 0); connects := 1; console := [];
                  scopes := {[ 0%nat := Active ]} |}.
Proof.
  apply (beginTransaction_then_dbRequest (stubDriver (Returned twoSets)) initial _
           (TransactionHandle 0)).
  reflexivity.
Defined.
